(** * Workshop blockchain server: ledger and mining-coordination core

    A shallow embedding of [server.js]: the hashing and Merkle utilities,
    the [workshopState] store, the socket handlers ([join-workshop],
    [send-transaction], [mine-block], [disconnect]) and the mining trigger
    with its timers, followed by the properties of the ledger.

    Conventions of the embedding.
    - JavaScript strings are byte strings (their UTF-8 encoding); nicknames,
      roles, socket ids and hashes are [string].
    - Token quantities and timestamps are JavaScript numbers; the model takes
      them in [Z], where the double arithmetic of the source is exact
      (integers below 2^53).  A payload therefore carries integers for
      [amount] and [fee], on which [parseFloat] is the identity.
    - [Date.now()] and [Math.random()] are inputs of the handler that reads
      them; a random draw is a rational of [0,1).
    - [workshopState.participants] is a JavaScript [Map]; its iteration order
      (insertion order) decides what [find] returns, so the model is an
      association list in insertion order.
    - [crypto.SHA256(data).toString()] is the hexadecimal SHA-256 digest of the
      bytes of [data] (FIPS 180-4), embedded in [Module Sha256]. *)

From Stdlib Require Import ZArith List String Ascii Bool Lia QArith Qround.
From Stdlib Require Import DecimalString DecimalPos DecimalZ.
From Equations Require Import Equations.
Import ListNotations.

Local Open Scope string_scope.
Local Open Scope list_scope.
Local Open Scope Z_scope.

(* ------------------------------------------------------------------ *)
(** ** SHA-256 (the digest behind [crypto.SHA256]) *)

Module Sha256.

Definition mask32 : Z := 0xffffffff.

Definition add32 (x y : Z) : Z := Z.land (x + y) mask32.

Definition not32 (x : Z) : Z := Z.lxor x mask32.

Definition rotr (n x : Z) : Z :=
  Z.lor (Z.shiftr x n) (Z.land (Z.shiftl x (32 - n)) mask32).

Definition Ch (x y z : Z) : Z := Z.lxor (Z.land x y) (Z.land (not32 x) z).

Definition Maj (x y z : Z) : Z :=
  Z.lxor (Z.lxor (Z.land x y) (Z.land x z)) (Z.land y z).

Definition Sigma0 (x : Z) : Z := Z.lxor (Z.lxor (rotr 2 x) (rotr 13 x)) (rotr 22 x).
Definition Sigma1 (x : Z) : Z := Z.lxor (Z.lxor (rotr 6 x) (rotr 11 x)) (rotr 25 x).
Definition sigma0 (x : Z) : Z := Z.lxor (Z.lxor (rotr 7 x) (rotr 18 x)) (Z.shiftr x 3).
Definition sigma1 (x : Z) : Z := Z.lxor (Z.lxor (rotr 17 x) (rotr 19 x)) (Z.shiftr x 10).

(** The eight working words. *)
Record words8 : Type := W8 {
  wa : Z; wb : Z; wc : Z; wd : Z; we : Z; wf : Z; wg : Z; wh : Z }.

(** The constants of the standard are fractional parts of roots of the first
    primes: the first 32 bits of the cube roots of the first 64 primes for the
    round constants, of the square roots of the first 8 primes for the initial
    hash value. *)
Definition isPrime (n : nat) : bool :=
  forallb (fun d => negb (Nat.eqb (n mod d) 0)) (seq 2 (n - 2)).

Definition primes (count : nat) : list Z :=
  map Z.of_nat (firstn count (filter isPrime (seq 2 310))).

(** Integer cube root, one bit at a time from the top. *)
Fixpoint cubeRootFrom (bits : nat) (n r : Z) : Z :=
  match bits with
  | O => r
  | S bits' =>
      let c := r + 2 ^ Z.of_nat bits' in
      if c * c * c <=? n then cubeRootFrom bits' n c else cubeRootFrom bits' n r
  end.

Definition fracCubeRoot (p : Z) : Z := Z.land (cubeRootFrom 40 (p * 2 ^ 96) 0) mask32.

Definition fracSquareRoot (p : Z) : Z := Z.land (Z.sqrt (p * 2 ^ 64)) mask32.

Definition K : list Z := Eval vm_compute in map fracCubeRoot (primes 64).

Definition H0 : words8 :=
  Eval vm_compute in
    match map fracSquareRoot (primes 8) with
    | [a; b; c; d; e; f; g; h] => W8 a b c d e f g h
    | _ => W8 0 0 0 0 0 0 0 0
    end.

(** Message padding: a 1 bit, zeros up to 56 mod 64 bytes, and the bit length
    on eight big-endian bytes. *)
Definition be_bytes (n : nat) (x : Z) : list Z :=
  map (fun i => Z.land (Z.shiftr x (8 * Z.of_nat i)) 0xff) (rev (seq 0 n)).

Definition pad (msg : list Z) : list Z :=
  let len := Z.of_nat (List.length msg) in
  msg ++ [0x80] ++ repeat 0 (Z.to_nat ((55 - len) mod 64)) ++ be_bytes 8 (8 * len).

Definition be_word (b : list Z) : Z :=
  fold_left (fun acc x => Z.lor (Z.shiftl acc 8) x) b 0.

(** [n] groups of [k] elements, in order. *)
Fixpoint chunks {A} (k n : nat) (l : list A) : list (list A) :=
  match n with
  | O => []
  | S n' => firstn k l :: chunks k n' (skipn k l)
  end.

Definition block_words (blk : list Z) : list Z := map be_word (chunks 4 16 blk).

(** The message schedule, most recent word first. *)
Fixpoint extend (n : nat) (rw : list Z) : list Z :=
  match n with
  | O => rw
  | S n' =>
      let w := add32 (add32 (add32 (sigma1 (nth 1 rw 0)) (nth 6 rw 0))
                            (sigma0 (nth 14 rw 0))) (nth 15 rw 0) in
      extend n' (w :: rw)
  end.

Definition schedule (m : list Z) : list Z := rev (extend 48 (rev m)).

Definition round (s : words8) (kw : Z * Z) : words8 :=
  let '(W8 a b c d e f g h) := s in
  let t1 := add32 (add32 (add32 (add32 h (Sigma1 e)) (Ch e f g)) (fst kw)) (snd kw) in
  let t2 := add32 (Sigma0 a) (Maj a b c) in
  W8 (add32 t1 t2) a b c (add32 d t1) e f g.

Definition compress (s : words8) (blk : list Z) : words8 :=
  let '(W8 a b c d e f g h) := fold_left round (combine K (schedule (block_words blk))) s in
  W8 (add32 (wa s) a) (add32 (wb s) b) (add32 (wc s) c) (add32 (wd s) d)
     (add32 (we s) e) (add32 (wf s) f) (add32 (wg s) g) (add32 (wh s) h).

Definition digest (msg : list Z) : words8 :=
  let p := pad msg in
  fold_left compress (chunks 64 (List.length p / 64) p) H0.

(** Lower-case hexadecimal rendering, eight digits per word. *)
Definition hex_digit (x : Z) : ascii :=
  nth (Z.to_nat (Z.land x 0xf)) (list_ascii_of_string "0123456789abcdef") "0"%char.

Definition hex8 (x : Z) (k : string) : string :=
  String (hex_digit (Z.shiftr x 28)) (String (hex_digit (Z.shiftr x 24))
  (String (hex_digit (Z.shiftr x 20)) (String (hex_digit (Z.shiftr x 16))
  (String (hex_digit (Z.shiftr x 12)) (String (hex_digit (Z.shiftr x 8))
  (String (hex_digit (Z.shiftr x 4)) (String (hex_digit x) k))))))).

Definition toString (d : words8) : string :=
  let '(W8 a b c d e f g h) := d in
  hex8 a (hex8 b (hex8 c (hex8 d (hex8 e (hex8 f (hex8 g (hex8 h ""))))))).

Definition bytes_of_string (s : string) : list Z :=
  map (fun c => Z.of_N (N_of_ascii c)) (list_ascii_of_string s).

End Sha256.

(** [crypto.SHA256(data).toString()] *)
Definition SHA256 (data : string) : string :=
  Sha256.toString (Sha256.digest (Sha256.bytes_of_string data)).


(* ------------------------------------------------------------------ *)
(** ** Data model *)

(** The 64 zeros used as genesis [previousHash], genesis [merkleRoot] and as
    the Merkle root of no transaction. *)
Definition zeroHash : string :=
  "0000000000000000000000000000000000000000000000000000000000000000".

(** Template-literal rendering of an integer-valued number. *)
Definition numberToString (n : Z) : string := NilZero.string_of_int (Z.to_int n).

Module Participant.
Record t : Type := mk {
  id : string;
  nickname : string;
  role : string;
  balance : Z;
  miningRewards : option Z;   (* [null] for a non-miner *)
  blocksMined : option nat;   (* [null] for a non-miner *)
  online : bool;
  joinedAt : Z }.

Definition set_balance (b : Z) (p : t) : t :=
  mk (id p) (nickname p) (role p) b (miningRewards p) (blocksMined p) (online p) (joinedAt p).
Definition set_miningRewards (r : option Z) (p : t) : t :=
  mk (id p) (nickname p) (role p) (balance p) r (blocksMined p) (online p) (joinedAt p).
Definition set_blocksMined (n : option nat) (p : t) : t :=
  mk (id p) (nickname p) (role p) (balance p) (miningRewards p) n (online p) (joinedAt p).
Definition set_online (o : bool) (p : t) : t :=
  mk (id p) (nickname p) (role p) (balance p) (miningRewards p) (blocksMined p) o (joinedAt p).
End Participant.

Module Transaction.
Record t : Type := mk {
  id : Q;                     (* [Date.now() + Math.random()] *)
  from : string;
  to : string;
  amount : Z;
  fee : Z;
  timestamp : Z;
  hash : string }.            (* the empty string stands for the initial [null] *)

Definition set_hash (h : string) (x : t) : t :=
  mk (id x) (from x) (to x) (amount x) (fee x) (timestamp x) h.
End Transaction.

Module Block.
Record t : Type := mk {
  number : nat;
  previousHash : string;
  merkleRoot : string;
  timestamp : Z;
  transactions : list Transaction.t;
  miner : string;
  hash : string }.            (* the empty string stands for the initial [null] *)

Definition set_hash (h : string) (b : t) : t :=
  mk (number b) (previousHash b) (merkleRoot b) (timestamp b) (transactions b) (miner b) h.
End Block.

Record Stats : Type := mkStats {
  totalTransactions : nat;
  totalBlocks : nat;
  activeUsers : nat;
  activeMiners : nat }.

(** The [Map] from socket id to participant, in insertion order. *)
Definition registry : Type := list (string * Participant.t).

Record workshopState : Type := mkState {
  participants : registry;
  mempool : list Transaction.t;
  blockchain : list Block.t;
  currentMiner : option string;
  nextMiningTime : option Z;
  stats : Stats }.

(** [Map.prototype.get] *)
Fixpoint Map_get (k : string) (m : registry) : option Participant.t :=
  match m with
  | [] => None
  | (k', p) :: m' => if String.eqb k' k then Some p else Map_get k m'
  end.

(** [Map.prototype.set]: an existing key keeps its position, a new key goes last. *)
Fixpoint Map_set (k : string) (v : Participant.t) (m : registry) : registry :=
  match m with
  | [] => [(k, v)]
  | (k', p) :: m' => if String.eqb k' k then (k', v) :: m' else (k', p) :: Map_set k v m'
  end.

(** [Array.from(map.values())] *)
Definition Map_values (m : registry) : list Participant.t := map snd m.

(** Assignment to a field of the object that [get(k)] returned. *)
Fixpoint mutate_key (k : string) (f : Participant.t -> Participant.t) (m : registry) : registry :=
  match m with
  | [] => []
  | (k', p) :: m' => if String.eqb k' k then (k', f p) :: m' else (k', p) :: mutate_key k f m'
  end.

(** Assignment to a field of the object that [values().find(test)] returned;
    nothing happens when [find] returns [undefined]. *)
Fixpoint mutate_found (test : Participant.t -> bool) (f : Participant.t -> Participant.t)
    (m : registry) : registry :=
  match m with
  | [] => []
  | (k, p) :: m' => if test p then (k, f p) :: m' else (k, p) :: mutate_found test f m'
  end.

(** Numeric reading of a counter that may be [null]. *)
Definition numZ (x : option Z) : Z := match x with Some v => v | None => 0 end.
Definition numN (x : option nat) : nat := match x with Some v => v | None => O end.

(** Truthiness of [workshopState.currentMiner]: [null] and the empty string are falsy. *)
Definition truthy (x : option string) : bool :=
  match x with
  | Some n => negb (String.eqb n "")
  | None => false
  end.

(** [workshopState.currentMiner === nickname] *)
Definition isCurrentMiner (x : option string) (nickname : string) : bool :=
  match x with
  | Some n => String.eqb n nickname
  | None => false
  end.

(* ------------------------------------------------------------------ *)
(** ** Utility functions *)

Definition generateTransactionHash (transaction : Transaction.t) : string :=
  let data :=
    (Transaction.from transaction ++ ":" ++ Transaction.to transaction ++ ":" ++
     numberToString (Transaction.amount transaction) ++ ":" ++
     numberToString (Transaction.fee transaction) ++ ":" ++
     numberToString (Transaction.timestamp transaction))%string in
  SHA256 data.

Definition generateBlockHash (block : Block.t) : string :=
  let data :=
    (Block.previousHash block ++ ":" ++ Block.merkleRoot block ++ ":" ++
     numberToString (Block.timestamp block) ++ ":" ++
     numberToString (Z.of_nat (Block.number block)))%string in
  SHA256 data.

(** One pass of the inner [for] loop: [currentLevel[i + 1] || left] takes [left]
    when the right neighbour is missing or is the empty string. *)
Fixpoint nextLevel (currentLevel : list string) : list string :=
  match currentLevel with
  | [] => []
  | lft :: rest =>
      match rest with
      | [] => [SHA256 (lft ++ lft)%string]
      | r :: rest' =>
          let rgt := if String.eqb r "" then lft else r in
          SHA256 (lft ++ rgt)%string :: nextLevel rest'
      end
  end.

(** The [while (currentLevel.length > 1)] loop. *)
Equations? merkleLoop (currentLevel : list string) : list string
  by wf (List.length currentLevel) lt :=
  merkleLoop [] := [];
  merkleLoop [h] := [h];
  merkleLoop (h1 :: h2 :: rest) := merkleLoop (nextLevel (h1 :: h2 :: rest)).
Proof.
  assert (shrink : forall n l, (List.length l <= n)%nat ->
                               (List.length (nextLevel l) <= List.length l)%nat).
  { induction n as [|n IH]; intros [|a [|b l]] Hl; simpl in *; try lia.
    assert (List.length (nextLevel l) <= List.length l)%nat by (apply IH; lia).
    lia. }
  specialize (shrink _ rest (le_n _)). lia.
Qed.

Definition buildMerkleTree (txHashes : list string) : string :=
  match txHashes with
  | [] => zeroHash
  | [h] => h
  | _ => hd "" (merkleLoop txHashes)
  end.

(* ------------------------------------------------------------------ *)
(** ** The workshop state and its handlers *)

Definition set_participants (ps : registry) (s : workshopState) : workshopState :=
  mkState ps (mempool s) (blockchain s) (currentMiner s) (nextMiningTime s) (stats s).
Definition set_mempool (mp : list Transaction.t) (s : workshopState) : workshopState :=
  mkState (participants s) mp (blockchain s) (currentMiner s) (nextMiningTime s) (stats s).
Definition set_blockchain (bc : list Block.t) (s : workshopState) : workshopState :=
  mkState (participants s) (mempool s) bc (currentMiner s) (nextMiningTime s) (stats s).
Definition set_currentMiner (m : option string) (s : workshopState) : workshopState :=
  mkState (participants s) (mempool s) (blockchain s) m (nextMiningTime s) (stats s).
Definition set_nextMiningTime (t : option Z) (s : workshopState) : workshopState :=
  mkState (participants s) (mempool s) (blockchain s) (currentMiner s) t (stats s).
Definition set_stats (st : Stats) (s : workshopState) : workshopState :=
  mkState (participants s) (mempool s) (blockchain s) (currentMiner s) (nextMiningTime s) st.

(** The state literal at the top of the file. *)
Definition emptyState : workshopState :=
  mkState [] [] [] None None (mkStats 0 0 0 0).

Definition genesisHash : string :=
  "genesis_block_hash_0000000000000000000000000000000000000000000000".

Definition genesisBlock (now : Z) : Block.t :=
  Block.mk 0 zeroHash zeroHash now [] "Genesis" genesisHash.

Definition initializeBlockchain (now : Z) (s : workshopState) : workshopState :=
  set_blockchain (blockchain s ++ [genesisBlock now]) s.

Definition isOnlineMiner (p : Participant.t) : bool :=
  String.eqb (Participant.role p) "miner" && Participant.online p.

Definition isOnlineUser (p : Participant.t) : bool :=
  String.eqb (Participant.role p) "user" && Participant.online p.

(** [Math.floor(Math.random() * miners.length)], then the array read, which is
    [undefined] outside the array. *)
Definition getRandomMiner (random : Q) (s : workshopState) : option Participant.t :=
  let miners := filter isOnlineMiner (Map_values (participants s)) in
  match miners with
  | [] => None
  | _ =>
      let randomIndex := Qfloor (random * inject_Z (Z.of_nat (List.length miners))) in
      if randomIndex <? 0 then None else nth_error miners (Z.to_nat randomIndex)
  end.

Definition updateStats (s : workshopState) : workshopState :=
  let ps := Map_values (participants s) in
  set_stats (mkStats (totalTransactions (stats s)) (totalBlocks (stats s))
                     (List.length (filter isOnlineUser ps))
                     (List.length (filter isOnlineMiner ps))) s.

(** [triggerMining]: the state change; the callback of the 30 s timer it arms
    is [turnTimeout], delivered by the event [ev_turn_timer] below. *)
Definition triggerMining (random : Q) (now : Z) (s : workshopState) : workshopState :=
  if truthy (currentMiner s) then s
  else
    match getRandomMiner random s with
    | None => s
    | Some availableMiner =>
        set_nextMiningTime (Some (now + 30000))
          (set_currentMiner (Some (Participant.nickname availableMiner)) s)
    end.

(** What the handlers send back to the calling socket or broadcast. *)
Inductive join_reply : Type :=
| join_error (message : string)
| join_success (participant : Participant.t).

Inductive transaction_reply : Type :=
| transaction_error (message : string)
| new_transaction (transaction : Transaction.t).

Inductive mining_reply : Type :=
| mining_error (message : string)
| block_mined (block : Block.t).

Definition hasNickname (nickname : string) (p : Participant.t) : bool :=
  String.eqb (Participant.nickname p) nickname.

Definition hasNicknameOnline (nickname : string) (p : Participant.t) : bool :=
  String.eqb (Participant.nickname p) nickname && Participant.online p.

(** [socket.on('join-workshop', ...)] *)
Definition join_workshop (socket_id nickname role : string) (now : Z)
    (s : workshopState) : join_reply * workshopState :=
  match find (hasNicknameOnline nickname) (Map_values (participants s)) with
  | Some _ => (join_error "Nickname already taken!", s)
  | None =>
      let participant :=
        Participant.mk socket_id nickname role
          (if String.eqb role "user" then 100 else 0)
          (if String.eqb role "miner" then Some 0 else None)
          (if String.eqb role "miner" then Some O else None)
          true now in
      (join_success participant,
       updateStats (set_participants (Map_set socket_id participant (participants s)) s))
  end.

(** The clock and random readings of one [send-transaction] call, in the order
    the handler makes them; the last two are those of [triggerMining]. *)
Record sendEnv : Type := mkSendEnv {
  id_now : Z;
  id_random : Q;
  timestamp_now : Z;
  trigger_random : Q;
  trigger_now : Z }.

(** [socket.on('send-transaction', ...)] *)
Definition send_transaction (socket_id to : string) (amount fee : Z) (env : sendEnv)
    (s : workshopState) : transaction_reply * workshopState :=
  match Map_get socket_id (participants s) with
  | None => (transaction_error "Only users can send transactions!", s)
  | Some sender =>
      if negb (String.eqb (Participant.role sender) "user") then
        (transaction_error "Only users can send transactions!", s)
      else if Participant.balance sender <? amount + fee then
        (transaction_error "Insufficient balance!", s)
      else
        match find (hasNicknameOnline to) (Map_values (participants s)) with
        | None => (transaction_error "Recipient not found!", s)
        | Some recipient =>
            let transaction0 :=
              Transaction.mk (inject_Z (id_now env) + id_random env)%Q
                (Participant.nickname sender) (Participant.nickname recipient)
                amount fee (timestamp_now env) "" in
            let transaction :=
              Transaction.set_hash (generateTransactionHash transaction0) transaction0 in
            if (5 <=? List.length (mempool s))%nat then
              (transaction_error "Mempool is full! Wait for next block.", s)
            else
              let s1 := set_mempool (mempool s ++ [transaction]) s in
              let s2 :=
                set_stats (mkStats (S (totalTransactions (stats s1))) (totalBlocks (stats s1))
                                   (activeUsers (stats s1)) (activeMiners (stats s1))) s1 in
              let s3 :=
                set_participants
                  (mutate_key socket_id
                     (fun p => Participant.set_balance
                                 (Participant.balance p
                                  - (Transaction.amount transaction + Transaction.fee transaction)) p)
                     (participants s2)) s2 in
              (new_transaction transaction,
               if (3 <=? List.length (mempool s3))%nat
               then triggerMining (trigger_random env) (trigger_now env) s3
               else s3)
        end
  end.

(** The body of [transactionsToMine.forEach]: credit the first participant of
    the registry that carries the nickname [tx.to], if there is one. *)
Definition creditRecipient (ps : registry) (tx : Transaction.t) : registry :=
  mutate_found (hasNickname (Transaction.to tx))
    (fun p => Participant.set_balance (Participant.balance p + Transaction.amount tx) p) ps.

Definition totalFees (txs : list Transaction.t) : Z :=
  fold_left (fun sum tx => sum + Transaction.fee tx) txs 0.

Definition rewardMiner (fees : Z) (p : Participant.t) : Participant.t :=
  Participant.set_blocksMined (Some (S (numN (Participant.blocksMined p))))
    (Participant.set_miningRewards (Some (numZ (Participant.miningRewards p) + fees)) p).

(** [socket.on('mine-block', ...)]; the 5 s timer armed at the end, which calls
    [triggerMining], is the event [ev_retry_timer] below. *)
Definition mine_block (socket_id : string) (now : Z)
    (s : workshopState) : mining_reply * workshopState :=
  match Map_get socket_id (participants s) with
  | None => (mining_error "Only miners can mine blocks!", s)
  | Some miner =>
      if negb (String.eqb (Participant.role miner) "miner") then
        (mining_error "Only miners can mine blocks!", s)
      else if negb (isCurrentMiner (currentMiner s) (Participant.nickname miner)) then
        (mining_error "Not your turn to mine!", s)
      else if (List.length (mempool s) =? 0)%nat then
        (mining_error "No transactions to mine!", s)
      else
        let transactionsToMine := firstn 5 (mempool s) in
        let s1 := set_mempool (skipn 5 (mempool s)) s in
        let txHashes := map Transaction.hash transactionsToMine in
        let merkleRoot := buildMerkleTree txHashes in
        let previousBlock := nth_error (blockchain s1) (List.length (blockchain s1) - 1) in
        let previousHash :=
          match previousBlock with
          | Some b => Block.hash b
          | None => zeroHash
          end in
        let newBlock0 :=
          Block.mk (List.length (blockchain s1)) previousHash merkleRoot now
                   transactionsToMine (Participant.nickname miner) "" in
        let newBlock := Block.set_hash (generateBlockHash newBlock0) newBlock0 in
        let s2 := set_blockchain (blockchain s1 ++ [newBlock]) s1 in
        let s3 :=
          set_stats (mkStats (totalTransactions (stats s2)) (S (totalBlocks (stats s2)))
                             (activeUsers (stats s2)) (activeMiners (stats s2))) s2 in
        let s4 := set_participants (fold_left creditRecipient transactionsToMine (participants s3)) s3 in
        let s5 :=
          set_participants
            (mutate_key socket_id (rewardMiner (totalFees transactionsToMine)) (participants s4)) s4 in
        (block_mined newBlock, set_currentMiner None s5)
  end.

(** [socket.on('disconnect', ...)] *)
Definition disconnect (socket_id : string) (s : workshopState) : workshopState :=
  match Map_get socket_id (participants s) with
  | None => s
  | Some _ =>
      updateStats
        (set_participants (mutate_key socket_id (Participant.set_online false) (participants s)) s)
  end.

(** The callback of the 30 s timer armed by [triggerMining] for [nickname]. *)
Definition turnTimeout (nickname : string) (random : Q) (now : Z)
    (s : workshopState) : workshopState :=
  if isCurrentMiner (currentMiner s) nickname then
    let s1 := set_currentMiner None s in
    if (0 <? List.length (mempool s1))%nat then triggerMining random now s1 else s1
  else s.

(** The callback of [setInterval(..., 45000)]. *)
Definition sweep (random : Q) (now : Z) (s : workshopState) : workshopState :=
  if (0 <? List.length (mempool s))%nat && negb (truthy (currentMiner s))
  then triggerMining random now s
  else s.

(* ------------------------------------------------------------------ *)
(** ** Runs of the server *)

(** What the event loop can deliver: a message of a connected socket, the
    disconnection of a socket, or the firing of a timer. *)
Inductive event : Type :=
| ev_join (socket_id nickname role : string) (now : Z)
| ev_send (socket_id to : string) (amount fee : Z) (env : sendEnv)
| ev_mine (socket_id : string) (now : Z)
| ev_disconnect (socket_id : string)
| ev_retry_timer (random : Q) (now : Z)
| ev_turn_timer (nickname : string) (random : Q) (now : Z)
| ev_sweep (random : Q) (now : Z).

Definition step (e : event) (s : workshopState) : workshopState :=
  match e with
  | ev_join sid nickname role now => snd (join_workshop sid nickname role now s)
  | ev_send sid to amount fee env => snd (send_transaction sid to amount fee env s)
  | ev_mine sid now => snd (mine_block sid now s)
  | ev_disconnect sid => disconnect sid s
  | ev_retry_timer random now => triggerMining random now s
  | ev_turn_timer nickname random now => turnTimeout nickname random now s
  | ev_sweep random now => sweep random now s
  end.

(** [Math.random()] lies in [0,1). *)
Definition isRandom (r : Q) : bool := Qle_bool 0 r && negb (Qle_bool 1 r).

(** A socket that has disconnected sends nothing more: the participant of the
    calling socket, when there is one, is online. *)
Definition connected (socket_id : string) (s : workshopState) : bool :=
  match Map_get socket_id (participants s) with
  | Some p => Participant.online p
  | None => true
  end.

(** The events the server can receive in state [s]. *)
Definition admissible (e : event) (s : workshopState) : bool :=
  match e with
  | ev_join sid _ _ _ => connected sid s
  | ev_send sid _ _ _ env => connected sid s && isRandom (id_random env) && isRandom (trigger_random env)
  | ev_mine sid _ => connected sid s
  | ev_disconnect sid => connected sid s
  | ev_retry_timer random _ => isRandom random
  | ev_turn_timer _ random _ => isRandom random
  | ev_sweep random _ => isRandom random
  end.

(** The states of the running server: [initializeBlockchain()] on the state
    literal, then any admissible events.  Timer events may fire at any moment,
    which covers every schedule of the timers the source arms. *)
Inductive reachable : workshopState -> Prop :=
| reachable_init (now : Z) : reachable (initializeBlockchain now emptyState)
| reachable_step (e : event) (s : workshopState) :
    reachable s -> admissible e s = true -> reachable (step e s).

(** Running a list of events, refusing an inadmissible one. *)
Fixpoint run (es : list event) (s : workshopState) : option workshopState :=
  match es with
  | [] => Some s
  | e :: es' => if admissible e s then run es' (step e s) else None
  end.

(* ------------------------------------------------------------------ *)
(** ** Notions used by the properties *)

(** A sequence of hashes: digests are never the empty string. *)
Definition hashes (l : list string) : Prop := Forall (fun h => h <> "") l.

(** The Merkle root as the specification words it: pair adjacent elements left
    to right, the last one with itself when it has no neighbour, and hash the
    concatenation of each pair. *)
Fixpoint pairUp (level : list string) : list string :=
  match level with
  | [] => []
  | [h] => [SHA256 (h ++ h)%string]
  | h1 :: h2 :: rest => SHA256 (h1 ++ h2)%string :: pairUp rest
  end.

(** ... until one hash remains; the sentinel for no hash at all. *)
Inductive merkleRootOf : list string -> string -> Prop :=
| root_sentinel : merkleRootOf [] zeroHash
| root_single (h : string) : merkleRootOf [h] h
| root_level (l : list string) (r : string) :
    (2 <= List.length l)%nat -> merkleRootOf (pairUp l) r -> merkleRootOf l r.

(** Each block but the first names the hash of its predecessor. *)
Fixpoint linked (chain : list Block.t) : Prop :=
  match chain with
  | [] => True
  | b :: rest =>
      match rest with
      | [] => True
      | b' :: _ => Block.previousHash b' = Block.hash b /\ linked rest
      end
  end.

(** The chain of a running server: the genesis block, then mined blocks that
    carry their own digest and their position. *)
Definition minedAt (i : nat) (b : Block.t) : Prop :=
  Block.number b = i /\ Block.hash b = generateBlockHash b.

Fixpoint minedFrom (i : nat) (chain : list Block.t) : Prop :=
  match chain with
  | [] => True
  | b :: rest => minedAt i b /\ minedFrom (S i) rest
  end.

Definition chainShape (chain : list Block.t) : Prop :=
  exists now rest, chain = genesisBlock now :: rest /\ minedFrom 1 rest.

(** The last block of the chain, [blockchain[blockchain.length - 1]]. *)
Definition chainTail (chain : list Block.t) : option Block.t :=
  nth_error chain (List.length chain - 1).










(** The balance of the participant of a socket. *)
Definition balanceOf (socket_id : string) (s : workshopState) : option Z :=
  option_map Participant.balance (Map_get socket_id (participants s)).

(* ------------------------------------------------------------------ *)
(** ** Concrete runs *)

Definition start : workshopState := initializeBlockchain 1700000000000 emptyState.

Definition after (es : list event) : workshopState :=
  fold_left (fun s e => step e s) es start.

Definition env (now : Z) : sendEnv := mkSendEnv now (1 # 4) now (1 # 2) now.

(** User A (balance 100) sends 10 with fee 1 to user B. *)
Definition transferRun : list event :=
  [ ev_join "sA" "A" "user" 1700000001000;
    ev_join "sB" "B" "user" 1700000002000;
    ev_send "sA" "B" 10 1 (env 1700000003000) ].



(** A participant named bob left; a second bob is online when alice pays bob. *)
Definition staleNicknameRun : list event :=
  [ ev_join "s1" "bob" "user" 1700000001000;
    ev_disconnect "s1";
    ev_join "s2" "bob" "user" 1700000002000;
    ev_join "s3" "alice" "user" 1700000003000;
    ev_join "s4" "mina" "miner" 1700000004000;
    ev_send "s3" "bob" 10 1 (env 1700000005000);
    ev_sweep 0 1700000045000 ].

(** A miner whose nickname is the empty string holds the turn, and the pool
    holds two transactions. *)
Definition emptyNicknameRun : list event :=
  [ ev_join "m1" "" "miner" 1700000001000;
    ev_join "m2" "zoe" "miner" 1700000002000;
    ev_join "u1" "alice" "user" 1700000003000;
    ev_join "u2" "bob" "user" 1700000004000;
    ev_send "u1" "bob" 10 1 (env 1700000005000);
    ev_sweep 0 1700000045000;
    ev_send "u1" "bob" 10 1 (env 1700000046000) ].

(** The third submission, which calls [triggerMining]. *)
Definition thirdSubmission : event :=
  ev_send "u2" "alice" 5 1 (env 1700000047000).

(** The socket of zed joins again as bob after the bob that alice paid has
    left, and before the block is mined. *)
Definition reuseRun : list event :=
  [ ev_join "s0" "zed" "user" 1700000001000;
    ev_join "s1" "bob" "user" 1700000002000;
    ev_join "s3" "alice" "user" 1700000003000;
    ev_join "s4" "mina" "miner" 1700000004000;
    ev_send "s3" "bob" 10 1 (env 1700000005000);
    ev_disconnect "s1";
    ev_join "s0" "bob" "user" 1700000006000;
    ev_sweep 0 1700000045000 ].

(** Three miners, three pending transactions of fee 1, the turn is mina's. *)
Definition threeFeesRun : list event :=
  [ ev_join "sA" "alice" "user" 1700000001000;
    ev_join "sB" "bob" "user" 1700000002000;
    ev_join "sM" "mina" "miner" 1700000003000;
    ev_send "sA" "bob" 10 1 (env 1700000004000);
    ev_send "sA" "bob" 20 1 (env 1700000005000);
    ev_send "sB" "alice" 5 1 (env 1700000006000) ].

(** Five pending transactions and no miner to take them. *)
Definition fullPoolRun : list event :=
  [ ev_join "sA" "A" "user" 1700000001000;
    ev_join "sB" "B" "user" 1700000002000;
    ev_send "sA" "B" 1 1 (env 1700000003000);
    ev_send "sA" "B" 2 1 (env 1700000004000);
    ev_send "sB" "A" 3 1 (env 1700000005000);
    ev_send "sA" "B" 4 1 (env 1700000006000);
    ev_send "sB" "A" 5 1 (env 1700000007000) ].

(* ------------------------------------------------------------------ *)
(** ** Further notions: encodings, registry and counters *)




(** The online participants that carry a nickname: what the [find] of
    [join-workshop] and of [send-transaction] searches. *)
Definition onlineHolders (nickname : string) (ps : registry) : list Participant.t :=
  filter (hasNicknameOnline nickname) (Map_values ps).

(** The socket ids of the registry, in insertion order. *)
Definition Map_keys (m : registry) : list string := map fst m.

(** The number of transactions held by the blocks of a chain. *)
Definition minedCount (chain : list Block.t) : nat :=
  fold_right (fun b acc => (List.length (Block.transactions b) + acc)%nat) O chain.

(** A transaction that carries the digest of its own fields. *)
Definition hashed (tx : Transaction.t) : Prop :=
  Transaction.hash tx = generateTransactionHash tx.

(** A block as [mine-block] builds it: one to five hashed transactions under
    their Merkle root. *)
Definition minedBlock (b : Block.t) : Prop :=
  (1 <= List.length (Block.transactions b) <= 5)%nat
  /\ Block.merkleRoot b = buildMerkleTree (map Transaction.hash (Block.transactions b))
  /\ Forall hashed (Block.transactions b).

(** Runs whose events all pass a further test [P]. *)
Inductive reachableWith (P : event -> workshopState -> bool) : workshopState -> Prop :=
| reachableWith_init (now : Z) : reachableWith P (initializeBlockchain now emptyState)
| reachableWith_step (e : event) (s : workshopState) :
    reachableWith P s -> admissible e s = true -> P e s = true ->
    reachableWith P (step e s).





(** The registry of a running server: a nickname has at most one online
    holder, the socket ids are distinct, and each participant records the id
    of its socket. *)
Definition registryInvariant (ps : registry) : Prop :=
  (forall n, (List.length (onlineHolders n ps) <= 1)%nat)
  /\ NoDup (Map_keys ps)
  /\ Forall (fun kp => Participant.id (snd kp) = fst kp) ps.

(** The counters of [stats] against what they count. *)
Definition statsInvariant (s : workshopState) : Prop :=
  activeUsers (stats s) = List.length (filter isOnlineUser (Map_values (participants s)))
  /\ activeMiners (stats s) = List.length (filter isOnlineMiner (Map_values (participants s)))
  /\ S (totalBlocks (stats s)) = List.length (blockchain s)
  /\ totalTransactions (stats s)
     = (List.length (mempool s) + minedCount (blockchain s))%nat.


(** The array [miners] of [getRandomMiner]. *)
Definition onlineMiners (s : workshopState) : list Participant.t :=
  filter isOnlineMiner (Map_values (participants s)).


(* ------------------------------------------------------------------ *)
(** ** Test vectors and small runs *)

(** Closed goals about concrete inputs and runs are settled by evaluation. *)
Ltac evaluate := vm_compute; repeat split; first [reflexivity | discriminate].

Example SHA256_empty :
  SHA256 "" = "e3b0c44298fc1c149afbf4c8996fb92427ae41e4649b934ca495991b7852b855".
Proof. evaluate. Qed.

Example SHA256_abc :
  SHA256 "abc" = "ba7816bf8f01cfea414140de5dae2223b00361a396177a9cb410ff61f20015ad".
Proof. evaluate. Qed.

Example SHA256_two_blocks :
  SHA256 "abcdbcdecdefdefgefghfghighijhijkijkljklmklmnlmnomnopnopq"
  = "248d6a61d20638b8e5c026930c3e6039a33ce45964ff2167f6ecedd419db06c1".
Proof. evaluate. Qed.

Example numberToString_examples :
  numberToString 0 = "0" /\ numberToString 1700000000000 = "1700000000000"
  /\ numberToString (-5) = "-5".
Proof. repeat split. Qed.

Example buildMerkleTree_three :
  buildMerkleTree ["a"; "b"; "c"]
  = SHA256 (SHA256 "ab" ++ SHA256 "cc")%string.
Proof. evaluate. Qed.


Example Sha256_constants :
  hd 0 Sha256.K = 0x428a2f98 /\ last Sha256.K 0 = 0xc67178f2
  /\ List.length Sha256.K = 64%nat
  /\ Sha256.wa Sha256.H0 = 0x6a09e667 /\ Sha256.wh Sha256.H0 = 0x5be0cd19.
Proof. evaluate. Qed.

(** The pool reaches three transactions: mina is assigned, with a deadline 30 s
    after the third submission. *)
Example third_submission_assigns :
  currentMiner (after (firstn 5 threeFeesRun)) = None
  /\ currentMiner (after threeFeesRun) = Some "mina"
  /\ nextMiningTime (after threeFeesRun) = Some (1700000006000 + 30000).
Proof. evaluate. Qed.

(** The assigned miner mines a pool of three transactions of fee 1: block 1
    holds them, the rewards grow by 3, the pool is empty, the assignment is
    cleared. *)
Example three_fees_mined :
  match mine_block "sM" 1700000050000 (after threeFeesRun) with
  | (block_mined b, s') =>
      Block.number b = 1%nat
      /\ List.length (Block.transactions b) = 3%nat
      /\ option_map Participant.miningRewards (Map_get "sM" (participants s')) = Some (Some 3)
      /\ option_map Participant.blocksMined (Map_get "sM" (participants s')) = Some (Some 1%nat)
      /\ mempool s' = []
      /\ currentMiner s' = None
  | (mining_error _, _) => False
  end.
Proof. evaluate. Qed.

(** The deadline passes without a block: the assignment is cleared and, the
    pool being non-empty, made again. *)
Example turn_timeout_reassigns :
  currentMiner (step (ev_turn_timer "mina" 0 1700000036000) (after threeFeesRun)) = Some "mina"
  /\ nextMiningTime (step (ev_turn_timer "mina" 0 1700000036000) (after threeFeesRun))
     = Some 1700000066000.
Proof. evaluate. Qed.

(** A recipient nickname that only an offline participant carries. *)
Example offline_recipient_refused :
  send_transaction "s3" "bob" 10 1 (env 1700000004000)
    (after [ev_join "s1" "bob" "user" 1700000001000; ev_disconnect "s1";
            ev_join "s3" "alice" "user" 1700000003000])
  = (transaction_error "Recipient not found!",
     after [ev_join "s1" "bob" "user" 1700000001000; ev_disconnect "s1";
            ev_join "s3" "alice" "user" 1700000003000]).
Proof. evaluate. Qed.
(* ------------------------------------------------------------------ *)
(** ** Hashing and the Merkle root *)

Lemma SHA256_length (data : string) : String.length (SHA256 data) = 64%nat.
Proof.
  unfold SHA256.
  destruct (Sha256.digest (Sha256.bytes_of_string data)); reflexivity.
Qed.

Lemma SHA256_not_empty (data : string) : SHA256 data <> "".
Proof.
  intros H. pose proof (SHA256_length data) as L. rewrite H in L. discriminate L.
Qed.

Lemma nextLevel_pairUp (l : list string) : hashes l -> nextLevel l = pairUp l.
Proof.
  revert l.
  fix IH 1.
  intros [|a [|b l]] H; simpl; try reflexivity.
  inversion H as [|? ? _ H1]; subst. inversion H1 as [|? ? Hb H2]; subst.
  apply String.eqb_neq in Hb. rewrite Hb. f_equal. apply IH. exact H2.
Qed.

Lemma pairUp_hashes (l : list string) : hashes (pairUp l).
Proof.
  revert l.
  fix IH 1.
  intros [|a [|b l]]; simpl.
  - constructor.
  - constructor; [apply SHA256_not_empty | constructor].
  - constructor; [apply SHA256_not_empty | apply IH].
Qed.

Lemma merkleLoop_root (l : list string) :
  l <> [] -> hashes l -> exists r, merkleLoop l = [r] /\ merkleRootOf l r.
Proof.
  funelim (merkleLoop l); intros Hne Hh.
  - contradiction.
  - exists h. split; [reflexivity | constructor].
  - assert (E : nextLevel (h1 :: h2 :: rest) = pairUp (h1 :: h2 :: rest))
      by (apply nextLevel_pairUp; exact Hh).
    change (SHA256 (h1 ++ (if (h2 =? "")%string then h1 else h2)) :: nextLevel rest)
      with (nextLevel (h1 :: h2 :: rest)) in H.
    destruct H as [r [Hr Hroot]].
    + simpl. discriminate.
    + rewrite E. apply pairUp_hashes.
    + exists r. split.
      * exact Hr.
      * apply root_level; [simpl; lia | rewrite <- E; exact Hroot].
Qed.

Lemma merkleRootOf_functional (l : list string) (r r' : string) :
  merkleRootOf l r -> merkleRootOf l r' -> r = r'.
Proof.
  intros H. revert r'.
  induction H as [|h|l r Hlen Hroot IH]; intros r' H'.
  - inversion H'; subst; [reflexivity | simpl in *; lia].
  - inversion H'; subst; [reflexivity | simpl in *; lia].
  - inversion H'; subst; try (simpl in Hlen; lia).
    apply IH. assumption.
Qed.

(** C2. [buildMerkleTree] returns the all-zero sentinel for no hash and the
    single element unchanged for one hash; for a longer sequence of hashes it
    returns the root obtained by pairing adjacent elements left to right, the
    unpaired last one with itself, hashing each concatenation, until one hash
    remains; that root is unique, and equal sequences give equal roots. *)
Theorem buildMerkleTree_spec :
  buildMerkleTree [] = zeroHash
  /\ (forall h, buildMerkleTree [h] = h)
  /\ (forall l, hashes l -> merkleRootOf l (buildMerkleTree l))
  /\ (forall l r, hashes l -> merkleRootOf l r -> r = buildMerkleTree l)
  /\ (forall l l', l = l' -> buildMerkleTree l = buildMerkleTree l').
Proof.
  assert (R : forall l, hashes l -> merkleRootOf l (buildMerkleTree l)).
  { intros [|a [|b l]] Hh.
    - constructor.
    - constructor.
    - destruct (merkleLoop_root (a :: b :: l)) as [r [Hr Hroot]];
        [discriminate | exact Hh |].
      unfold buildMerkleTree. rewrite Hr. exact Hroot. }
  split; [reflexivity |].
  split; [reflexivity |].
  split; [exact R |].
  split.
  - intros l r Hh Hr. apply (merkleRootOf_functional l); [exact Hr | apply R; exact Hh].
  - intros l l' E. rewrite E. reflexivity.
Qed.

Lemma buildMerkleTree_spec_witness :
  merkleRootOf ["aa"; "bb"; "cc"] (buildMerkleTree ["aa"; "bb"; "cc"])
  /\ SHA256 (SHA256 "aabb" ++ SHA256 "cccc")%string = buildMerkleTree ["aa"; "bb"; "cc"]
  /\ buildMerkleTree ["aa"; "bb"] = buildMerkleTree ["aa"; "bb"].
Proof.
  destruct buildMerkleTree_spec as [_ [_ [H3 [H4 H5]]]].
  assert (Hh : hashes ["aa"; "bb"; "cc"]) by (repeat constructor; discriminate).
  split; [apply H3; exact Hh |].
  split; [| apply H5; reflexivity].
  apply H4; [exact Hh |].
  apply root_level; [simpl; lia |].
  apply root_level; [simpl; lia |].
  apply root_single.
Defined.

(* ------------------------------------------------------------------ *)
(** ** The registry *)

Arguments SHA256 : simpl never.
Arguments generateTransactionHash : simpl never.
Arguments generateBlockHash : simpl never.
Arguments buildMerkleTree : simpl never.

Lemma Map_get_mutate_key (k : string) f (m : registry) :
  Map_get k (mutate_key k f m) = option_map f (Map_get k m).
Proof.
  induction m as [|[k' p] m IH]; simpl; [reflexivity |].
  destruct (String.eqb k' k) eqn:E; simpl; rewrite E; [reflexivity | exact IH].
Qed.


























(* ------------------------------------------------------------------ *)
(** ** The handlers, case by case *)

Lemma isCurrentMiner_true (x : option string) (n : string) :
  isCurrentMiner x n = true <-> x = Some n.
Proof.
  destruct x as [m|]; simpl.
  - rewrite String.eqb_eq. split; [intros ->; reflexivity | intros H; injection H; auto].
  - split; discriminate.
Qed.

Lemma hasNicknameOnline_true (n : string) (p : Participant.t) :
  hasNicknameOnline n p = true <-> Participant.nickname p = n /\ Participant.online p = true.
Proof.
  unfold hasNicknameOnline. rewrite andb_true_iff, String.eqb_eq. reflexivity.
Qed.

Lemma triggerMining_frame (random : Q) (now : Z) (s : workshopState) :
  participants (triggerMining random now s) = participants s
  /\ mempool (triggerMining random now s) = mempool s
  /\ blockchain (triggerMining random now s) = blockchain s
  /\ stats (triggerMining random now s) = stats s.
Proof.
  unfold triggerMining.
  destruct (truthy (currentMiner s)); [auto |].
  destruct (getRandomMiner random s); simpl; auto.
Qed.

Lemma turnTimeout_frame (n : string) (random : Q) (now : Z) (s : workshopState) :
  participants (turnTimeout n random now s) = participants s
  /\ mempool (turnTimeout n random now s) = mempool s
  /\ blockchain (turnTimeout n random now s) = blockchain s
  /\ stats (turnTimeout n random now s) = stats s.
Proof.
  unfold turnTimeout.
  destruct (isCurrentMiner (currentMiner s) n); [| auto].
  destruct (0 <? List.length (mempool (set_currentMiner None s)))%nat; [| simpl; auto].
  apply (triggerMining_frame random now (set_currentMiner None s)).
Qed.

Lemma sweep_frame (random : Q) (now : Z) (s : workshopState) :
  participants (sweep random now s) = participants s
  /\ mempool (sweep random now s) = mempool s
  /\ blockchain (sweep random now s) = blockchain s
  /\ stats (sweep random now s) = stats s.
Proof.
  unfold sweep.
  destruct ((0 <? List.length (mempool s))%nat && negb (truthy (currentMiner s)));
    [apply triggerMining_frame | auto].
Qed.

Lemma join_workshop_frame (sid nickname role : string) (now : Z) (s : workshopState) :
  mempool (snd (join_workshop sid nickname role now s)) = mempool s
  /\ blockchain (snd (join_workshop sid nickname role now s)) = blockchain s
  /\ currentMiner (snd (join_workshop sid nickname role now s)) = currentMiner s.
Proof.
  unfold join_workshop.
  destruct (find (hasNicknameOnline nickname) (Map_values (participants s))); simpl; auto.
Qed.

Lemma disconnect_frame (sid : string) (s : workshopState) :
  mempool (disconnect sid s) = mempool s
  /\ blockchain (disconnect sid s) = blockchain s
  /\ currentMiner (disconnect sid s) = currentMiner s.
Proof.
  unfold disconnect. destruct (Map_get sid (participants s)); simpl; auto.
Qed.

(** A refused submission leaves the state as it was. *)
Lemma send_transaction_rejected (sid to : string) (amount fee : Z) (env : sendEnv)
    (s s' : workshopState) (msg : string) :
  send_transaction sid to amount fee env s = (transaction_error msg, s') -> s' = s.
Proof.
  unfold send_transaction.
  destruct (Map_get sid (participants s)) as [sender|]; [| intros H; injection H; auto].
  destruct (negb (String.eqb (Participant.role sender) "user")); [intros H; injection H; auto |].
  destruct (Participant.balance sender <? amount + fee); [intros H; injection H; auto |].
  destruct (find (hasNicknameOnline to) (Map_values (participants s))) as [recipient|];
    [| intros H; injection H; auto].
  cbv zeta.
  destruct (5 <=? List.length (mempool s))%nat; [intros H; injection H; auto |].
  discriminate.
Qed.

(** An accepted submission. *)
Lemma send_transaction_accepted (sid to : string) (amount fee : Z) (env : sendEnv)
    (s s' : workshopState) (tx : Transaction.t) :
  send_transaction sid to amount fee env s = (new_transaction tx, s') ->
  exists sender recipient,
    Map_get sid (participants s) = Some sender
    /\ Participant.role sender = "user"
    /\ amount + fee <= Participant.balance sender
    /\ find (hasNicknameOnline to) (Map_values (participants s)) = Some recipient
    /\ (List.length (mempool s) < 5)%nat
    /\ tx = Transaction.mk (inject_Z (id_now env) + id_random env)%Q
              (Participant.nickname sender) to amount fee (timestamp_now env)
              (generateTransactionHash tx)
    /\ participants s'
       = mutate_key sid
           (fun p => Participant.set_balance (Participant.balance p - (amount + fee)) p)
           (participants s)
    /\ mempool s' = mempool s ++ [tx]
    /\ blockchain s' = blockchain s
    /\ stats s' = mkStats (S (totalTransactions (stats s))) (totalBlocks (stats s))
                          (activeUsers (stats s)) (activeMiners (stats s))
    /\ s' = (let s3 := mkState (participants s') (mempool s') (blockchain s)
                               (currentMiner s) (nextMiningTime s) (stats s') in
             if (3 <=? List.length (mempool s3))%nat
             then triggerMining (trigger_random env) (trigger_now env) s3 else s3).
Proof.
  unfold send_transaction.
  destruct (Map_get sid (participants s)) as [sender|]; [| discriminate].
  destruct (negb (String.eqb (Participant.role sender) "user")) eqn:Hrole; [discriminate |].
  apply negb_false_iff in Hrole.
  destruct (Participant.balance sender <? amount + fee) eqn:Hfunds; [discriminate |].
  destruct (find (hasNicknameOnline to) (Map_values (participants s))) as [recipient|] eqn:Hfind;
    [| discriminate].
  cbv zeta.
  destruct (5 <=? List.length (mempool s))%nat eqn:Hcap; [discriminate |].
  apply String.eqb_eq in Hrole. apply Z.ltb_ge in Hfunds. apply Nat.leb_gt in Hcap.
  assert (Hto : Participant.nickname recipient = to).
  { destruct (find_some _ _ Hfind) as [_ Ht]. apply hasNicknameOnline_true in Ht. tauto. }
  rewrite Hto.
  intros H. injection H as Htx Hs'.
  exists sender, recipient.
  match type of Hs' with
  | (if ?c then triggerMining ?r ?n ?s3 else ?s3) = _ =>
      pose proof (triggerMining_frame r n s3) as [F1 [F2 [F3 F4]]];
      assert (G : participants s' = participants s3 /\ mempool s' = mempool s3
                  /\ blockchain s' = blockchain s3 /\ stats s' = stats s3)
        by (rewrite <- Hs'; destruct c; auto)
  end.
  simpl in G. destruct G as [G1 [G2 [G3 G4]]].
  repeat split; try assumption.
  - rewrite <- Htx. reflexivity.
  - rewrite G2, <- Htx. reflexivity.
  - rewrite G1, G2, G4, <- Hs'. reflexivity.
Qed.


(** A refused mining request leaves the state as it was. *)
Lemma mine_block_rejected (sid : string) (now : Z) (s s' : workshopState) (msg : string) :
  mine_block sid now s = (mining_error msg, s') -> s' = s.
Proof.
  unfold mine_block.
  destruct (Map_get sid (participants s)) as [miner|]; [| intros H; injection H; auto].
  destruct (negb (String.eqb (Participant.role miner) "miner")); [intros H; injection H; auto |].
  destruct (negb (isCurrentMiner (currentMiner s) (Participant.nickname miner)));
    [intros H; injection H; auto |].
  destruct (List.length (mempool s) =? 0)%nat; [intros H; injection H; auto |].
  cbv zeta. discriminate.
Qed.

(** A committed block. *)
Lemma mine_block_committed (sid : string) (now : Z) (s s' : workshopState) (b : Block.t) :
  mine_block sid now s = (block_mined b, s') ->
  exists miner,
    Map_get sid (participants s) = Some miner
    /\ Participant.role miner = "miner"
    /\ currentMiner s = Some (Participant.nickname miner)
    /\ mempool s <> []
    /\ (Block.number b = List.length (blockchain s)
        /\ Block.previousHash b = match chainTail (blockchain s) with
                                  | Some t => Block.hash t
                                  | None => zeroHash
                                  end
        /\ Block.merkleRoot b = buildMerkleTree (map Transaction.hash (firstn 5 (mempool s)))
        /\ Block.timestamp b = now
        /\ Block.transactions b = firstn 5 (mempool s)
        /\ Block.miner b = Participant.nickname miner
        /\ Block.hash b = generateBlockHash b)
    /\ s' = mkState
              (mutate_key sid (rewardMiner (totalFees (firstn 5 (mempool s))))
                 (fold_left creditRecipient (firstn 5 (mempool s)) (participants s)))
              (skipn 5 (mempool s))
              (blockchain s ++ [b])
              None (nextMiningTime s)
              (mkStats (totalTransactions (stats s)) (S (totalBlocks (stats s)))
                       (activeUsers (stats s)) (activeMiners (stats s))).
Proof.
  unfold mine_block.
  destruct (Map_get sid (participants s)) as [miner|]; [| discriminate].
  destruct (negb (String.eqb (Participant.role miner) "miner")) eqn:Hrole; [discriminate |].
  destruct (negb (isCurrentMiner (currentMiner s) (Participant.nickname miner))) eqn:Hturn;
    [discriminate |].
  destruct (List.length (mempool s) =? 0)%nat eqn:Hpool; [discriminate |].
  cbv zeta. intros H. injection H as Hb Hs'.
  apply negb_false_iff in Hrole, Hturn.
  apply String.eqb_eq in Hrole. apply isCurrentMiner_true in Hturn.
  apply Nat.eqb_neq in Hpool.
  exists miner. repeat split; try assumption; try (rewrite <- Hb; reflexivity).
  - intros E. rewrite E in Hpool. apply Hpool. reflexivity.
  - rewrite <- Hs', Hb. reflexivity.
Qed.


(* ------------------------------------------------------------------ *)
(** ** Runs and their invariants *)

Lemma run_reachable (es : list event) (s s' : workshopState) :
  reachable s -> run es s = Some s' -> reachable s'.
Proof.
  revert s. induction es as [|e es IH]; intros s Hs H; simpl in H.
  - injection H as <-. exact Hs.
  - destruct (admissible e s) eqn:A; [| discriminate].
    apply (IH (step e s)); [apply reachable_step; assumption | exact H].
Qed.

Lemma run_after (es : list event) (s s' : workshopState) :
  run es s = Some s' -> s' = fold_left (fun s e => step e s) es s.
Proof.
  revert s. induction es as [|e es IH]; intros s H; simpl in *.
  - injection H as <-. reflexivity.
  - destruct (admissible e s); [apply IH; exact H | discriminate].
Qed.

Lemma start_reachable : reachable start.
Proof. apply reachable_init. Qed.

(** What one event does to the chain: nothing, or one block appended. *)
Lemma step_blockchain (e : event) (s : workshopState) :
  blockchain (step e s) = blockchain s
  \/ exists b, blockchain (step e s) = blockchain s ++ [b]
               /\ Block.number b = List.length (blockchain s)
               /\ Block.previousHash b = match chainTail (blockchain s) with
                                         | Some t => Block.hash t
                                         | None => zeroHash
                                         end
               /\ Block.hash b = generateBlockHash b.
Proof.
  destruct e as [sid n r now | sid to a f env | sid now | sid | r now | n r now | r now]; simpl.
  - left. apply join_workshop_frame.
  - left. destruct (send_transaction sid to a f env s) as [[msg | tx] s'] eqn:E; simpl.
    + rewrite (send_transaction_rejected _ _ _ _ _ _ _ _ E). reflexivity.
    + destruct (send_transaction_accepted _ _ _ _ _ _ _ _ E) as [? [? H]]. tauto.
  - destruct (mine_block sid now s) as [[msg | b] s'] eqn:E; simpl.
    + left. rewrite (mine_block_rejected _ _ _ _ _ E). reflexivity.
    + right. destruct (mine_block_committed _ _ _ _ _ E) as [miner [_ [_ [_ [_ [Hb Hs']]]]]].
      exists b. rewrite Hs'. simpl. tauto.
  - left. apply disconnect_frame.
  - left. apply triggerMining_frame.
  - left. apply turnTimeout_frame.
  - left. apply sweep_frame.
Qed.

(** What one event does to the pool: nothing, one transaction appended to a
    pool of fewer than five by a submission, or the first five removed by a
    mined block. *)
Lemma step_mempool (e : event) (s : workshopState) :
  mempool (step e s) = mempool s
  \/ (exists sid to a f env tx,
        e = ev_send sid to a f env
        /\ (List.length (mempool s) < 5)%nat
        /\ mempool (step e s) = mempool s ++ [tx])
  \/ (exists sid now,
        e = ev_mine sid now /\ mempool (step e s) = skipn 5 (mempool s)).
Proof.
  destruct e as [sid n r now | sid to a f env | sid now | sid | r now | n r now | r now]; simpl.
  - left. apply join_workshop_frame.
  - destruct (send_transaction sid to a f env s) as [[msg | tx] s'] eqn:E; simpl.
    + left. rewrite (send_transaction_rejected _ _ _ _ _ _ _ _ E). reflexivity.
    + right. left.
      destruct (send_transaction_accepted _ _ _ _ _ _ _ _ E)
        as [? [? [_ [_ [_ [_ [Hcap [_ [_ [Hpool _]]]]]]]]]].
      exists sid, to, a, f, env, tx. auto.
  - destruct (mine_block sid now s) as [[msg | b] s'] eqn:E; simpl.
    + left. rewrite (mine_block_rejected _ _ _ _ _ E). reflexivity.
    + right. right. destruct (mine_block_committed _ _ _ _ _ E) as [miner [_ [_ [_ [_ [_ Hs']]]]]].
      exists sid, now. rewrite Hs'. auto.
  - left. apply disconnect_frame.
  - left. apply triggerMining_frame.
  - left. apply turnTimeout_frame.
  - left. apply sweep_frame.
Qed.

Lemma reachable_pool_bound (s : workshopState) :
  reachable s -> (List.length (mempool s) <= 5)%nat.
Proof.
  induction 1 as [now | e s Hs IH A]; [simpl; lia |].
  destruct (step_mempool e s) as [E | [[sid [to [a [f [env [tx [_ [Hlt E]]]]]]]] | [sid [now [_ E]]]]];
    rewrite E.
  - exact IH.
  - rewrite length_app. simpl. lia.
  - rewrite length_skipn. lia.
Qed.


Lemma chainTail_cons (a b : Block.t) (l : list Block.t) :
  chainTail (a :: b :: l) = chainTail (b :: l).
Proof.
  unfold chainTail. simpl. rewrite Nat.sub_0_r. reflexivity.
Qed.

Lemma linked_app (l : list Block.t) (b : Block.t) :
  linked l ->
  (forall t, chainTail l = Some t -> Block.previousHash b = Block.hash t) ->
  linked (l ++ [b]).
Proof.
  induction l as [|a l IH]; intros Hl Ht; [exact I |].
  destruct l as [|a' l].
  - simpl. split; [apply Ht; reflexivity | exact I].
  - destruct Hl as [H1 H2].
    change (linked (a :: (a' :: l) ++ [b])).
    split; [exact H1 |].
    apply IH; [exact H2 |].
    intros t Htail. apply Ht. rewrite chainTail_cons. exact Htail.
Qed.


Lemma minedFrom_app (i : nat) (l : list Block.t) (b : Block.t) :
  minedFrom i l -> minedAt (i + List.length l) b -> minedFrom i (l ++ [b]).
Proof.
  revert i. induction l as [|a l IH]; intros i Hl Hb; simpl in *.
  - rewrite Nat.add_0_r in Hb. auto.
  - destruct Hl as [Ha Hl]. split; [exact Ha |].
    apply IH; [exact Hl |]. replace (S i + List.length l)%nat with (i + S (List.length l))%nat by lia.
    exact Hb.
Qed.

Lemma minedFrom_nth (i : nat) (l : list Block.t) (n : nat) (b : Block.t) :
  minedFrom i l -> nth_error l n = Some b -> minedAt (i + n) b.
Proof.
  revert i n. induction l as [|a l IH]; intros i n Hl H; [destruct n; discriminate |].
  destruct Hl as [Ha Hl]. destruct n as [|n]; simpl in H.
  - injection H as <-. rewrite Nat.add_0_r. exact Ha.
  - replace (i + S n)%nat with (S i + n)%nat by lia. apply IH; assumption.
Qed.

Lemma reachable_chain (s : workshopState) :
  reachable s -> chainShape (blockchain s) /\ linked (blockchain s).
Proof.
  induction 1 as [now | e s Hs [[now [rest [Hc Hm]]] Hl] A].
  - split; [exists now, []; split; [reflexivity | exact I] | exact I].
  - destruct (step_blockchain e s) as [E | [b [E [Hn [Hp Hh]]]]]; rewrite E.
    + split; [exists now, rest; auto | exact Hl].
    + split.
      * exists now, (rest ++ [b]). split; [rewrite Hc; reflexivity |].
        apply minedFrom_app; [exact Hm |].
        split; [rewrite Hn, Hc; reflexivity | exact Hh].
      * apply linked_app; [exact Hl |].
        intros t Ht. rewrite Hp, Ht. reflexivity.
Qed.

Lemma after_reachable (es : list event) :
  run es start <> None -> reachable (after es).
Proof.
  destruct (run es start) as [s|] eqn:E; [intros _ | intros C; contradiction].
  pose proof (run_after _ _ _ E) as ->.
  apply (run_reachable es start); [apply start_reachable | exact E].
Qed.

(* ------------------------------------------------------------------ *)
(** ** The pending pool *)

(** C6. In every reachable state the pending pool holds at most 5
    transactions: a submission to a pool of 5 or more changes nothing and,
    when it passes the earlier checks, is answered "Mempool is full! Wait for
    next block." (CapacityError); mining leaves the pool as it is or removes
    its first five; and no event other than a submission lengthens the pool. *)
Theorem mempool_bounded :
  (forall s, reachable s -> (List.length (mempool s) <= 5)%nat)
  /\ (forall sid to amount fee env s,
        (5 <= List.length (mempool s))%nat ->
        snd (send_transaction sid to amount fee env s) = s
        /\ (forall sender recipient,
              Map_get sid (participants s) = Some sender ->
              Participant.role sender = "user" ->
              amount + fee <= Participant.balance sender ->
              find (hasNicknameOnline to) (Map_values (participants s)) = Some recipient ->
              fst (send_transaction sid to amount fee env s)
              = transaction_error "Mempool is full! Wait for next block."))
  /\ (forall sid now s,
        mempool (snd (mine_block sid now s)) = mempool s
        \/ mempool (snd (mine_block sid now s)) = skipn 5 (mempool s))
  /\ (forall e s,
        (forall sid to amount fee env, e <> ev_send sid to amount fee env) ->
        (List.length (mempool (step e s)) <= List.length (mempool s))%nat).
Proof.
  split; [exact reachable_pool_bound |].
  split; [| split].
  - intros sid to amount fee env s Hfull. split.
    + destruct (send_transaction sid to amount fee env s) as [[msg | tx] s'] eqn:E; simpl.
      * apply (send_transaction_rejected _ _ _ _ _ _ _ _ E).
      * destruct (send_transaction_accepted _ _ _ _ _ _ _ _ E)
          as [? [? [_ [_ [_ [_ [Hcap _]]]]]]]. lia.
    + intros sender recipient Hget Hrole Hfunds Hfind.
      unfold send_transaction. rewrite Hget, Hrole, Hfind.
      change (negb ("user" =? "user")%string) with false. cbv iota.
      apply Z.ltb_ge in Hfunds. rewrite Hfunds. cbv zeta.
      apply Nat.leb_le in Hfull. rewrite Hfull. reflexivity.
  - intros sid now s.
    destruct (step_mempool (ev_mine sid now) s)
      as [E | [[? [? [? [? [? [? [C _]]]]]]] | [? [? [_ E]]]]]; auto.
    discriminate C.
  - intros e s Hns.
    destruct (step_mempool e s)
      as [E | [[sid [to [a [f [env [tx [C _]]]]]]] | [? [? [_ E]]]]].
    + rewrite E. lia.
    + exfalso. apply (Hns _ _ _ _ _ C).
    + rewrite E, length_skipn. lia.
Qed.

(* ------------------------------------------------------------------ *)
(** ** Refused requests *)



Lemma mempool_bounded_witness :
  (List.length (mempool (after fullPoolRun)) <= 5)%nat
  /\ (snd (send_transaction "sA" "B" 1 1 (env 1700000008000) (after fullPoolRun))
      = after fullPoolRun
      /\ fst (send_transaction "sA" "B" 1 1 (env 1700000008000) (after fullPoolRun))
         = transaction_error "Mempool is full! Wait for next block.")
  /\ (List.length (mempool (step (ev_sweep 0 1700000045000) (after fullPoolRun)))
      <= List.length (mempool (after fullPoolRun)))%nat.
Proof.
  destruct mempool_bounded as [H1 [H2 [_ H4]]].
  split; [apply H1; apply after_reachable; evaluate |].
  split.
  - destruct (H2 "sA" "B" 1 1 (env 1700000008000) (after fullPoolRun)) as [Hs Hr];
      [vm_compute; lia |].
    split; [exact Hs |].
    apply (Hr (Participant.mk "sA" "A" "user" 90 None None true 1700000001000)
              (Participant.mk "sB" "B" "user" 90 None None true 1700000002000));
      [evaluate | reflexivity | evaluate
       | evaluate].
  - apply H4. intros sid to amount fee e C. discriminate C.
Defined.



(* ------------------------------------------------------------------ *)
(** ** Blocks and the chain *)

Lemma genesisHash_not_digest (data : string) : genesisHash <> SHA256 data.
Proof.
  intros E. pose proof (SHA256_length data) as L. rewrite <- E in L. discriminate L.
Qed.



(** The genesis block of the initial chain against the digest of its fields. *)
Lemma genesis_hash_counterexample :
  reachable start
  /\ In (genesisBlock 1700000000000) (blockchain start)
  /\ Block.hash (genesisBlock 1700000000000)
     <> generateBlockHash (genesisBlock 1700000000000).
Proof.
  split; [apply start_reachable |].
  split; [left; reflexivity |].
  apply genesisHash_not_digest.
Qed.

(** C7 (amended). In every reachable state the chain starts with the genesis
    block, and every later block carries as [hash] the digest
    [generateBlockHash] of its own fields, which is the SHA-256 of
    previousHash:merkleRoot:timestamp:number and depends on no other field.
    The genesis block carries the fixed string [genesisHash], which is not the
    digest of its fields. *)
Theorem mined_block_hash :
  (forall s, reachable s ->
     (exists now, nth_error (blockchain s) 0 = Some (genesisBlock now))
     /\ (forall i b, nth_error (blockchain s) (S i) = Some b ->
                     Block.hash b = generateBlockHash b))
  /\ (forall b,
        generateBlockHash b
        = SHA256 (Block.previousHash b ++ ":" ++ Block.merkleRoot b ++ ":" ++
                  numberToString (Block.timestamp b) ++ ":" ++
                  numberToString (Z.of_nat (Block.number b)))%string)
  /\ (forall b b',
        Block.previousHash b = Block.previousHash b' ->
        Block.merkleRoot b = Block.merkleRoot b' ->
        Block.timestamp b = Block.timestamp b' ->
        Block.number b = Block.number b' ->
        generateBlockHash b = generateBlockHash b')
  /\ (forall now,
        Block.hash (genesisBlock now) = genesisHash
        /\ Block.hash (genesisBlock now) <> generateBlockHash (genesisBlock now)).
Proof.
  split; [| split; [| split]].
  - intros s Hs. destruct (reachable_chain s Hs) as [[now [rest [Hc Hm]]] _].
    split; [exists now; rewrite Hc; reflexivity |].
    intros i b Hb. rewrite Hc in Hb. simpl in Hb.
    apply (minedFrom_nth 1 rest i b Hm Hb).
  - intros b. reflexivity.
  - intros b b' Hp Hr Ht Hn. unfold generateBlockHash. rewrite Hp, Hr, Ht, Hn. reflexivity.
  - intros now. split; [reflexivity |]. apply genesisHash_not_digest.
Qed.

Lemma mined_block_hash_witness :
  match nth_error (blockchain (after (threeFeesRun ++ [ev_mine "sM" 1700000050000]))) 1 with
  | Some b => Block.hash b = generateBlockHash b
  | None => False
  end
  /\ generateBlockHash (genesisBlock 1) = generateBlockHash (Block.set_hash "x" (genesisBlock 1)).
Proof.
  destruct mined_block_hash as [H1 [_ [H3 _]]].
  split.
  - destruct (nth_error (blockchain (after (threeFeesRun ++ [ev_mine "sM" 1700000050000]))) 1)
      as [b|] eqn:E; [| vm_compute in E; discriminate E].
    refine (proj2 (H1 _ _) 0%nat b E).
    apply after_reachable. vm_compute. discriminate.
  - apply H3; reflexivity.
Defined.






(* ------------------------------------------------------------------ *)
(** ** Submissions and the token supply *)















(* ------------------------------------------------------------------ *)
(** ** The mining trigger *)

Lemma isRandom_bounds (r : Q) : isRandom r = true -> (0 <= r)%Q /\ (r < 1)%Q.
Proof.
  unfold isRandom. rewrite andb_true_iff, negb_true_iff.
  intros [H0 H1]. split; [apply Qle_bool_iff; exact H0 |].
  apply Qnot_le_lt. intros C. apply Qle_bool_iff in C. congruence.
Qed.

(** [Math.floor(random * n)] is an index of an array of [n] elements. *)
Lemma randomIndex_bounds (r : Q) (n : nat) :
  isRandom r = true -> (0 < n)%nat ->
  0 <= Qfloor (r * inject_Z (Z.of_nat n)) < Z.of_nat n.
Proof.
  intros Hr Hn. destruct (isRandom_bounds r Hr) as [H0 H1].
  assert (Hpos : (0 < inject_Z (Z.of_nat n))%Q).
  { change 0%Q with (inject_Z 0). rewrite <- Zlt_Qlt. lia. }
  split.
  - change 0 with (Qfloor 0). apply Qfloor_resp_le.
    apply Qmult_le_0_compat; [exact H0 | apply Qlt_le_weak; exact Hpos].
  - rewrite Zlt_Qlt.
    apply Qle_lt_trans with (r * inject_Z (Z.of_nat n))%Q; [apply Qfloor_le |].
    setoid_replace (inject_Z (Z.of_nat n)) with (1 * inject_Z (Z.of_nat n))%Q at 2 by ring.
    apply Qmult_lt_compat_r; assumption.
Qed.


(** [triggerMining] on a state whose assignment is truthy, on a state without
    online miner, and otherwise. *)
Lemma triggerMining_cases (random : Q) (now : Z) (s : workshopState) :
  (truthy (currentMiner s) = true -> triggerMining random now s = s)
  /\ (filter isOnlineMiner (Map_values (participants s)) = [] ->
      triggerMining random now s = s)
  /\ (truthy (currentMiner s) = false ->
      isRandom random = true ->
      filter isOnlineMiner (Map_values (participants s)) <> [] ->
      exists m,
        nth_error (filter isOnlineMiner (Map_values (participants s)))
          (Z.to_nat (Qfloor (random * inject_Z
             (Z.of_nat (List.length (filter isOnlineMiner (Map_values (participants s))))))))
        = Some m
        /\ In m (Map_values (participants s))
        /\ Participant.role m = "miner" /\ Participant.online m = true
        /\ triggerMining random now s
           = mkState (participants s) (mempool s) (blockchain s)
                     (Some (Participant.nickname m)) (Some (now + 30000)) (stats s)).
Proof.
  unfold triggerMining, getRandomMiner. cbv zeta.
  split; [intros ->; reflexivity |].
  split.
  - intros ->. destruct (truthy (currentMiner s)); reflexivity.
  - intros -> Hr Hne.
    set (miners := filter isOnlineMiner (Map_values (participants s))) in *.
    assert (Hlen : (0 < List.length miners)%nat)
      by (destruct miners; [contradiction | simpl; lia]).
    pose proof (randomIndex_bounds random (List.length miners) Hr Hlen) as [Hlo Hhi].
    destruct (nth_error miners
                (Z.to_nat (Qfloor (random * inject_Z (Z.of_nat (List.length miners))))))
      as [m|] eqn:E.
    + exists m. split; [reflexivity |].
      pose proof (nth_error_In _ _ E) as Hin. unfold miners in Hin.
      apply filter_In in Hin. destruct Hin as [Hin Hm].
      unfold isOnlineMiner in Hm. apply andb_true_iff in Hm. destruct Hm as [Hm1 Hm2].
      apply String.eqb_eq in Hm1.
      repeat split; try assumption.
      destruct miners; [contradiction |].
      apply Z.ltb_ge in Hlo. rewrite Hlo. reflexivity.
    + exfalso. apply nth_error_None in E. lia.
Qed.

(** C8, at the failing input.  A miner whose nickname is the empty string
    holds the assignment and may mine.  The third submission reaches the
    trigger, which does not see the assignment and, instead of doing nothing,
    hands the turn to zoe with a new deadline. *)
Theorem triggerMining_empty_nickname :
  reachable (after emptyNicknameRun)
  /\ admissible thirdSubmission (after emptyNicknameRun) = true
  /\ currentMiner (after emptyNicknameRun) = Some ""
  /\ nextMiningTime (after emptyNicknameRun) = Some 1700000075000
  /\ match mine_block "m1" 1700000050000 (after emptyNicknameRun) with
     | (block_mined b, _) => Block.miner b = ""
     | (mining_error _, _) => False
     end
  /\ currentMiner (step thirdSubmission (after emptyNicknameRun)) = Some "zoe"
  /\ nextMiningTime (step thirdSubmission (after emptyNicknameRun)) = Some 1700000077000
  /\ triggerMining (1 # 2) 1700000047000 (after emptyNicknameRun) <> after emptyNicknameRun.
Proof.
  split; [apply after_reachable; evaluate |].
  assert (E : currentMiner (triggerMining (1 # 2) 1700000047000 (after emptyNicknameRun))
              = Some "zoe") by (evaluate).
  split; [evaluate |].
  split; [evaluate |].
  split; [evaluate |].
  split; [evaluate |].
  split; [evaluate |].
  split; [evaluate |].
  intros C. rewrite C in E. vm_compute in E. discriminate E.
Qed.

(** C9, at the failing inputs.  First run: the first bob has left; alice pays
    the bob who is online, entry s2; the block credits the 10 tokens to the
    entry s1 of the bob who left, and the online bob keeps 100.  Second run:
    alice pays bob, entry s1; bob leaves and the socket s0 joins again as bob;
    the block credits the new bob of s0, and the bob that was paid keeps 100. *)
Theorem mine_block_stale_nickname :
  (reachable (after staleNicknameRun)
   /\ option_map Participant.id
        (find (hasNicknameOnline "bob")
           (Map_values (participants (after (firstn 5 staleNicknameRun)))))
      = Some "s2"
   /\ map (fun tx => (Transaction.from tx, Transaction.to tx, Transaction.amount tx))
          (mempool (after staleNicknameRun)) = [("alice", "bob", 10)]
   /\ balanceOf "s1" (after staleNicknameRun) = Some 100
   /\ balanceOf "s2" (after staleNicknameRun) = Some 100
   /\ match mine_block "s4" 1700000050000 (after staleNicknameRun) with
      | (block_mined b, s') =>
          map Transaction.to (Block.transactions b) = ["bob"]
          /\ balanceOf "s1" s' = Some 110
          /\ balanceOf "s2" s' = Some 100
          /\ option_map Participant.online (Map_get "s1" (participants s')) = Some false
      | (mining_error _, _) => False
      end)
  /\ (reachable (after reuseRun)
      /\ option_map Participant.id
           (find (hasNicknameOnline "bob")
              (Map_values (participants (after (firstn 4 reuseRun)))))
         = Some "s1"
      /\ map (fun tx => (Transaction.from tx, Transaction.to tx, Transaction.amount tx))
             (mempool (after reuseRun)) = [("alice", "bob", 10)]
      /\ map (fun kp => (fst kp, Participant.nickname (snd kp), Participant.joinedAt (snd kp),
                         Participant.balance (snd kp)))
             (participants (after reuseRun))
         = [("s0", "bob", 1700000006000, 100); ("s1", "bob", 1700000002000, 100);
            ("s3", "alice", 1700000003000, 89); ("s4", "mina", 1700000004000, 0)]
      /\ match mine_block "s4" 1700000050000 (after reuseRun) with
         | (block_mined b, s') =>
             map Transaction.to (Block.transactions b) = ["bob"]
             /\ balanceOf "s0" s' = Some 110
             /\ balanceOf "s1" s' = Some 100
         | (mining_error _, _) => False
         end).
Proof.
  split.
  - split; [apply after_reachable; evaluate |].
    evaluate.
  - split; [apply after_reachable; evaluate |].
    evaluate.
Qed.

(* ------------------------------------------------------------------ *)
(** ** Hashed strings and Merkle roots, further properties *)









(** X2. The colon of the hashed string is not escaped: a sender a:b paying c
    and a sender a paying b:c, with the same amount, fee and timestamp, get the
    same transaction hash. *)
Theorem transaction_hash_colon_collision :
  forall (a b c : string) (amount fee timestamp : Z) (id id' : Q) (h h' : string),
    generateTransactionHash
      (Transaction.mk id (a ++ ":" ++ b)%string c amount fee timestamp h)
    = generateTransactionHash
        (Transaction.mk id' a (b ++ ":" ++ c)%string amount fee timestamp h').
Proof.
  intros a b c amount fee timestamp id id' h h'.
  unfold generateTransactionHash. cbn [Transaction.from Transaction.to Transaction.amount
                                       Transaction.fee Transaction.timestamp].
  f_equal.
  assert (A : forall x y z : string, ((x ++ y) ++ z = x ++ (y ++ z))%string).
  { induction x as [|ch x IH]; intros y z; simpl; [reflexivity | rewrite IH; reflexivity]. }
  rewrite !A. reflexivity.
Qed.

(** Every element of the next level is a digest. *)
Lemma nextLevel_all (P : string -> Prop) (l : list string) :
  (forall data, P (SHA256 data)) -> Forall P (nextLevel l).
Proof.
  intros HP. revert l. fix IH 1.
  intros [|a [|b l]]; simpl.
  - constructor.
  - constructor; [apply HP | constructor].
  - constructor; [apply HP | apply IH].
Qed.

Lemma merkleLoop_keeps (P : string -> Prop) (l : list string) :
  (forall data, P (SHA256 data)) -> Forall P l -> Forall P (merkleLoop l).
Proof.
  intros HP. funelim (merkleLoop l); intros Hl.
  - constructor.
  - exact Hl.
  - apply (H P HP).
    constructor; [apply HP | apply nextLevel_all; exact HP].
Qed.

Lemma merkleLoop_one (l : list string) : l <> [] -> exists r, merkleLoop l = [r].
Proof.
  funelim (merkleLoop l); intros Hne.
  - contradiction.
  - exists h. reflexivity.
  - apply H. simpl. discriminate.
Qed.

Lemma nextLevel_tail (l : list string) (x : string) :
  Nat.even (List.length l) = true ->
  nextLevel (l ++ [x; ""]) = nextLevel (l ++ [x])
  /\ nextLevel (l ++ [x; x]) = nextLevel (l ++ [x]).
Proof.
  revert l. fix IH 1.
  intros [|a [|b l]] He.
  - simpl. destruct (String.eqb x ""); auto.
  - discriminate He.
  - change (Nat.even (List.length l) = true) in He.
    destruct (IH l He) as [E1 E2].
    simpl. simpl in E1, E2. rewrite E1, E2. auto.
Qed.

Lemma buildMerkleTree_two_or_more (a b : string) (l : list string) :
  buildMerkleTree (a :: b :: l) = hd "" (merkleLoop (nextLevel (a :: b :: l))).
Proof.
  unfold buildMerkleTree. simp merkleLoop. reflexivity.
Qed.

(** X3. The root of two or more strings is a digest of 64 characters, and so
    is the root of any sequence of 64-character hashes, the empty one
    included. *)
Theorem buildMerkleTree_length :
  (forall l, (2 <= List.length l)%nat -> String.length (buildMerkleTree l) = 64%nat)
  /\ (forall l, Forall (fun h => String.length h = 64%nat) l ->
                String.length (buildMerkleTree l) = 64%nat).
Proof.
  assert (T : forall l, (2 <= List.length l)%nat ->
                        String.length (buildMerkleTree l) = 64%nat).
  { intros [|a [|b l]] Hl; simpl in Hl; try lia.
    rewrite buildMerkleTree_two_or_more.
    destruct (merkleLoop_one (nextLevel (a :: b :: l))) as [r Hr]; [simpl; discriminate |].
    pose proof (merkleLoop_keeps (fun h => String.length h = 64%nat)
                  (nextLevel (a :: b :: l)) SHA256_length
                  (nextLevel_all _ _ SHA256_length)) as Hd.
    rewrite Hr in *. inversion Hd; subst. assumption. }
  split; [exact T |].
  intros [|a [|b l]] Hl.
  - reflexivity.
  - inversion Hl; subst. assumption.
  - apply T. simpl. lia.
Qed.

Lemma buildMerkleTree_length_witness :
  String.length (buildMerkleTree ["a"; "b"; "c"]) = 64%nat
  /\ String.length (buildMerkleTree [zeroHash]) = 64%nat.
Proof.
  destruct buildMerkleTree_length as [H1 H2].
  split; [apply H1; simpl; lia |].
  apply H2. constructor; [reflexivity | constructor].
Defined.

(** X4. Second preimages of the Merkle root.  After an even number of
    elements, a last element [x] alone, [x] followed by itself, and [x]
    followed by the empty string give the same root: the unpaired element is
    paired with itself, and [currentLevel[i + 1] || left] takes an empty right
    neighbour for a missing one. *)
Theorem buildMerkleTree_duplicate_last :
  forall l x,
    Nat.even (List.length l) = true ->
    buildMerkleTree (l ++ [x; ""]) = buildMerkleTree (l ++ [x; x])
    /\ (l <> [] -> buildMerkleTree (l ++ [x; x]) = buildMerkleTree (l ++ [x])).
Proof.
  intros l x He. destruct (nextLevel_tail l x He) as [E1 E2].
  destruct l as [|a [|b l]]; [| discriminate He |].
  - split; [| intros C; contradiction].
    change (buildMerkleTree [x; ""] = buildMerkleTree [x; x]).
    rewrite !buildMerkleTree_two_or_more.
    change (nextLevel ([] ++ [x; ""]) = nextLevel ([] ++ [x])) in E1.
    change (nextLevel ([] ++ [x; x]) = nextLevel ([] ++ [x])) in E2.
    simpl app in E1, E2. rewrite E1, E2. reflexivity.
  - split; [| intros _].
    + change (buildMerkleTree (a :: b :: (l ++ [x; ""]))
              = buildMerkleTree (a :: b :: (l ++ [x; x]))).
      rewrite !buildMerkleTree_two_or_more.
      change (nextLevel (a :: b :: (l ++ [x; ""])) = nextLevel (a :: b :: (l ++ [x]))) in E1.
      change (nextLevel (a :: b :: (l ++ [x; x])) = nextLevel (a :: b :: (l ++ [x]))) in E2.
      rewrite E1, E2. reflexivity.
    + change (buildMerkleTree (a :: b :: (l ++ [x; x]))
              = buildMerkleTree (a :: b :: (l ++ [x]))).
      rewrite !buildMerkleTree_two_or_more.
      change (nextLevel (a :: b :: (l ++ [x; x])) = nextLevel (a :: b :: (l ++ [x]))) in E2.
      rewrite E2. reflexivity.
Qed.

Lemma buildMerkleTree_duplicate_last_witness :
  buildMerkleTree (["aa"; "bb"] ++ ["cc"; ""]) = buildMerkleTree (["aa"; "bb"] ++ ["cc"; "cc"])
  /\ buildMerkleTree (["aa"; "bb"] ++ ["cc"; "cc"]) = buildMerkleTree (["aa"; "bb"] ++ ["cc"]).
Proof.
  destruct (buildMerkleTree_duplicate_last ["aa"; "bb"] "cc") as [H1 H2]; [reflexivity |].
  split; [exact H1 | apply H2; discriminate].
Defined.

(* ------------------------------------------------------------------ *)
(** ** Joining, leaving and the registry *)

Lemma Map_get_Map_set (k : string) (v : Participant.t) (m : registry) :
  Map_get k (Map_set k v m) = Some v.
Proof.
  induction m as [|[k' p] m IH]; simpl.
  - rewrite String.eqb_refl. reflexivity.
  - destruct (String.eqb k' k) eqn:E; simpl; rewrite E; [reflexivity | exact IH].
Qed.

Lemma Map_get_Map_set_other (k k' : string) (v : Participant.t) (m : registry) :
  k' <> k -> Map_get k' (Map_set k v m) = Map_get k' m.
Proof.
  intros Hk. induction m as [|[k0 p] m IH]; simpl.
  - apply String.eqb_neq in Hk. rewrite String.eqb_sym, Hk. reflexivity.
  - destruct (String.eqb k0 k) eqn:E; simpl.
    + apply String.eqb_eq in E. subst k0.
      destruct (String.eqb k k') eqn:E'; [| reflexivity].
      apply String.eqb_eq in E'. congruence.
    + rewrite IH. reflexivity.
Qed.

Lemma Map_get_mutate_key_else (k k' : string) f (m : registry) :
  k' <> k -> Map_get k' (mutate_key k f m) = Map_get k' m.
Proof.
  intros Hk. induction m as [|[k0 p] m IH]; simpl; [reflexivity |].
  destruct (String.eqb k0 k) eqn:E; simpl.
  - apply String.eqb_eq in E. subst k0.
    destruct (String.eqb k k') eqn:E'; [| reflexivity].
    apply String.eqb_eq in E'. congruence.
  - rewrite IH. reflexivity.
Qed.

Lemma Map_get_In (k : string) (p : Participant.t) (m : registry) :
  Map_get k m = Some p -> In (k, p) m.
Proof.
  induction m as [|[k' q] m IH]; simpl; [discriminate |].
  destruct (String.eqb k' k) eqn:E.
  - intros H. injection H as ->. apply String.eqb_eq in E. subst. auto.
  - auto.
Qed.

Lemma Map_keys_mutate_key (k : string) f (m : registry) :
  Map_keys (mutate_key k f m) = Map_keys m.
Proof.
  induction m as [|[k' p] m IH]; simpl; [reflexivity |].
  destruct (String.eqb k' k); simpl; [reflexivity | rewrite IH; reflexivity].
Qed.

Lemma Map_keys_mutate_found test f (m : registry) :
  Map_keys (mutate_found test f m) = Map_keys m.
Proof.
  induction m as [|[k' p] m IH]; simpl; [reflexivity |].
  destruct (test p); simpl; [reflexivity | rewrite IH; reflexivity].
Qed.

Lemma Map_keys_credits (txs : list Transaction.t) (m : registry) :
  Map_keys (fold_left creditRecipient txs m) = Map_keys m.
Proof.
  revert m. induction txs as [|tx txs IH]; intros m; simpl; [reflexivity |].
  rewrite IH. apply Map_keys_mutate_found.
Qed.

Lemma Map_keys_Map_set (k : string) (v : Participant.t) (m : registry) :
  Map_keys (Map_set k v m)
  = match Map_get k m with
    | Some _ => Map_keys m
    | None => Map_keys m ++ [k]
    end.
Proof.
  induction m as [|[k' p] m IH]; simpl; [reflexivity |].
  destruct (String.eqb k' k); simpl; [reflexivity |].
  rewrite IH. destruct (Map_get k m); reflexivity.
Qed.

Lemma Map_get_None_keys (k : string) (m : registry) :
  Map_get k m = None -> ~ In k (Map_keys m).
Proof.
  induction m as [|[k' p] m IH]; simpl; [auto |].
  destruct (String.eqb k' k) eqn:E; [discriminate |].
  intros H [C | C]; [subst; rewrite String.eqb_refl in E; discriminate | exact (IH H C)].
Qed.

(** Properties of every entry, through the three ways the handlers change the
    registry. *)
Lemma Forall_mutate_key (Q : string * Participant.t -> Prop) (k : string) f (m : registry) :
  Forall Q m ->
  (forall p, Map_get k m = Some p -> Q (k, p) -> Q (k, f p)) ->
  Forall Q (mutate_key k f m).
Proof.
  induction m as [|[k' p] m IH]; intros Hm Hf; simpl; [constructor |].
  inversion Hm as [|? ? Hq Hm']; subst.
  simpl in Hf. destruct (String.eqb k' k) eqn:E.
  - apply String.eqb_eq in E. subst k'. constructor; [apply Hf; auto | exact Hm'].
  - constructor; [exact Hq | apply IH; assumption].
Qed.

Lemma Forall_mutate_found (Q : string * Participant.t -> Prop) test f (m : registry) :
  Forall Q m ->
  (forall k p, test p = true -> Q (k, p) -> Q (k, f p)) ->
  Forall Q (mutate_found test f m).
Proof.
  induction m as [|[k' p] m IH]; intros Hm Hf; simpl; [constructor |].
  inversion Hm as [|? ? Hq Hm']; subst.
  destruct (test p) eqn:E.
  - constructor; [apply Hf; auto | exact Hm'].
  - constructor; [exact Hq | apply IH; assumption].
Qed.

Lemma Forall_credits (Q : string * Participant.t -> Prop) (txs : list Transaction.t)
    (m : registry) :
  Forall Q m ->
  (forall tx k p, In tx txs -> Q (k, p) ->
                  Q (k, Participant.set_balance (Participant.balance p + Transaction.amount tx) p)) ->
  Forall Q (fold_left creditRecipient txs m).
Proof.
  revert m. induction txs as [|tx txs IH]; intros m Hm Hf; simpl; [exact Hm |].
  apply IH.
  - unfold creditRecipient. apply Forall_mutate_found; [exact Hm |].
    intros k p _ Hq. apply (Hf tx); [left; reflexivity | exact Hq].
  - intros tx' k p Hin. apply Hf. right. exact Hin.
Qed.

Lemma Forall_Map_set (Q : string * Participant.t -> Prop) (k : string) (v : Participant.t)
    (m : registry) :
  Forall Q m -> Q (k, v) -> Forall Q (Map_set k v m).
Proof.
  induction m as [|[k' p] m IH]; intros Hm Hv; simpl; [repeat constructor; exact Hv |].
  inversion Hm as [|? ? Hq Hm']; subst.
  destruct (String.eqb k' k) eqn:E.
  - apply String.eqb_eq in E. subst k'. constructor; assumption.
  - constructor; [exact Hq | apply IH; assumption].
Qed.

(** Counting the participants that pass a test. *)
Lemma count_mutate_key_le test (k : string) f (m : registry) :
  (forall p, test (f p) = true -> test p = true) ->
  (List.length (filter test (Map_values (mutate_key k f m)))
   <= List.length (filter test (Map_values m)))%nat.
Proof.
  intros Hf. induction m as [|[k' p] m IH]; simpl; [lia |].
  destruct (String.eqb k' k); simpl.
  - destruct (test (f p)) eqn:E; [rewrite (Hf p E); simpl; lia |].
    destruct (test p); simpl; lia.
  - destruct (test p); simpl; fold (Map_values (mutate_key k f m)); fold (Map_values m); lia.
Qed.

Lemma count_mutate_key test (k : string) f (m : registry) :
  (forall p, test (f p) = test p) ->
  List.length (filter test (Map_values (mutate_key k f m)))
  = List.length (filter test (Map_values m)).
Proof.
  intros Hf. induction m as [|[k' p] m IH]; simpl; [reflexivity |].
  destruct (String.eqb k' k); simpl.
  - rewrite Hf. destruct (test p); reflexivity.
  - fold (Map_values (mutate_key k f m)). fold (Map_values m).
    destruct (test p); simpl; rewrite IH; reflexivity.
Qed.

Lemma count_mutate_found test test' f (m : registry) :
  (forall p, test (f p) = test p) ->
  List.length (filter test (Map_values (mutate_found test' f m)))
  = List.length (filter test (Map_values m)).
Proof.
  intros Hf. induction m as [|[k' p] m IH]; simpl; [reflexivity |].
  destruct (test' p); simpl.
  - rewrite Hf. destruct (test p); reflexivity.
  - fold (Map_values (mutate_found test' f m)). fold (Map_values m).
    destruct (test p); simpl; rewrite IH; reflexivity.
Qed.

Lemma count_credits test (txs : list Transaction.t) (m : registry) :
  (forall p b, test (Participant.set_balance b p) = test p) ->
  List.length (filter test (Map_values (fold_left creditRecipient txs m)))
  = List.length (filter test (Map_values m)).
Proof.
  intros Hf. revert m. induction txs as [|tx txs IH]; intros m; simpl; [reflexivity |].
  rewrite IH. unfold creditRecipient. apply count_mutate_found. intros p. apply Hf.
Qed.

Lemma count_Map_set_le test (k : string) (v : Participant.t) (m : registry) :
  (List.length (filter test (Map_values (Map_set k v m)))
   <= List.length (filter test (Map_values m)) + (if test v then 1 else 0))%nat.
Proof.
  induction m as [|[k' p] m IH]; simpl.
  - destruct (test v); simpl; lia.
  - destruct (String.eqb k' k); simpl.
    + destruct (test v), (test p); simpl; lia.
    + fold (Map_values (Map_set k v m)). fold (Map_values m).
      destruct (test p); simpl; lia.
Qed.

Lemma count_switch_off test (k : string) f (m : registry) (p : Participant.t) :
  Map_get k m = Some p -> test p = true -> test (f p) = false ->
  S (List.length (filter test (Map_values (mutate_key k f m))))
  = List.length (filter test (Map_values m)).
Proof.
  induction m as [|[k' q] m IH]; simpl; [discriminate |].
  destruct (String.eqb k' k); simpl; intros Hget Hp Hf.
  - injection Hget as ->. rewrite Hp, Hf. reflexivity.
  - fold (Map_values (mutate_key k f m)). fold (Map_values m).
    destruct (test q); simpl; rewrite <- (IH Hget Hp Hf); reflexivity.
Qed.

Lemma find_None_filter {A} (test : A -> bool) (l : list A) :
  find test l = None <-> filter test l = [].
Proof.
  induction l as [|a l IH]; simpl; [tauto |].
  destruct (test a); [split; discriminate | exact IH].
Qed.

(** The participant that [join-workshop] creates. *)
Lemma join_workshop_cases (sid nickname role : string) (now : Z) (s : workshopState) :
  (onlineHolders nickname (participants s) <> []
   /\ join_workshop sid nickname role now s = (join_error "Nickname already taken!", s))
  \/ (onlineHolders nickname (participants s) = []
      /\ join_workshop sid nickname role now s
         = (join_success
              (Participant.mk sid nickname role
                 (if String.eqb role "user" then 100 else 0)
                 (if String.eqb role "miner" then Some 0 else None)
                 (if String.eqb role "miner" then Some O else None) true now),
            updateStats
              (set_participants
                 (Map_set sid
                    (Participant.mk sid nickname role
                       (if String.eqb role "user" then 100 else 0)
                       (if String.eqb role "miner" then Some 0 else None)
                       (if String.eqb role "miner" then Some O else None) true now)
                    (participants s)) s))).
Proof.
  unfold join_workshop, onlineHolders.
  destruct (find (hasNicknameOnline nickname) (Map_values (participants s))) as [q|] eqn:E.
  - left. split; [| reflexivity].
    intros C. apply find_None_filter in C. congruence.
  - right. split; [apply find_None_filter; exact E | reflexivity].
Qed.

(** One event, case by case: what a property of the state has to survive. *)
Lemma step_cases (I : workshopState -> Prop) (e : event) (s : workshopState) :
  I s ->
  (forall sid nickname role now,
     e = ev_join sid nickname role now ->
     onlineHolders nickname (participants s) = [] ->
     I (updateStats
          (set_participants
             (Map_set sid
                (Participant.mk sid nickname role
                   (if String.eqb role "user" then 100 else 0)
                   (if String.eqb role "miner" then Some 0 else None)
                   (if String.eqb role "miner" then Some O else None) true now)
                (participants s)) s))) ->
  (forall sid to amount fee env tx s',
     e = ev_send sid to amount fee env ->
     send_transaction sid to amount fee env s = (new_transaction tx, s') -> I s') ->
  (forall sid now b s',
     e = ev_mine sid now -> mine_block sid now s = (block_mined b, s') -> I s') ->
  (forall sid p,
     e = ev_disconnect sid -> Map_get sid (participants s) = Some p ->
     I (updateStats
          (set_participants
             (mutate_key sid (Participant.set_online false) (participants s)) s))) ->
  (forall s0 n, I s0 -> I (set_currentMiner n s0)) ->
  (forall s0 t, I s0 -> I (set_nextMiningTime t s0)) ->
  I (step e s).
Proof.
  intros Hs Hjoin Hsend Hmine Hdisc Hcur Hnext.
  assert (Htrig : forall r now s0, I s0 -> I (triggerMining r now s0)).
  { intros r now s0 H0. unfold triggerMining.
    destruct (truthy (currentMiner s0)); [exact H0 |].
    destruct (getRandomMiner r s0); [| exact H0].
    apply Hnext, Hcur, H0. }
  destruct e as [sid n r now | sid to a f env | sid now | sid | r now | n r now | r now];
    cbn [step].
  - destruct (join_workshop_cases sid n r now s) as [[_ E] | [Hfree E]]; rewrite E; cbn [snd].
    + exact Hs.
    + apply (Hjoin sid n r now eq_refl Hfree).
  - destruct (send_transaction sid to a f env s) as [[msg | tx] s'] eqn:E; cbn [snd].
    + rewrite (send_transaction_rejected _ _ _ _ _ _ _ _ E). exact Hs.
    + apply (Hsend sid to a f env tx s' eq_refl E).
  - destruct (mine_block sid now s) as [[msg | b] s'] eqn:E; cbn [snd].
    + rewrite (mine_block_rejected _ _ _ _ _ E). exact Hs.
    + apply (Hmine sid now b s' eq_refl E).
  - unfold disconnect. destruct (Map_get sid (participants s)) as [p|] eqn:E; [| exact Hs].
    apply (Hdisc sid p eq_refl E).
  - apply Htrig, Hs.
  - unfold turnTimeout. destruct (isCurrentMiner (currentMiner s) n); [| exact Hs].
    destruct (0 <? List.length (mempool (set_currentMiner None s)))%nat.
    + apply Htrig, Hcur, Hs.
    + apply Hcur, Hs.
  - unfold sweep.
    destruct ((0 <? List.length (mempool s))%nat && negb (truthy (currentMiner s)));
      [apply Htrig, Hs | exact Hs].
Qed.

Lemma reachableWith_reachable (P : event -> workshopState -> bool) (s : workshopState) :
  reachableWith P s -> reachable s.
Proof.
  induction 1 as [now | e s _ IH A _]; [apply reachable_init | apply reachable_step; assumption].
Qed.

Lemma reachable_reachableWith (s : workshopState) :
  reachable s -> reachableWith (fun _ _ => true) s.
Proof.
  induction 1 as [now | e s _ IH A];
    [apply reachableWith_init | apply reachableWith_step; auto].
Qed.



Lemma registryInvariant_mutate_key (k : string) f (ps : registry) :
  (forall p, Participant.id (f p) = Participant.id p) ->
  (forall n p, hasNicknameOnline n (f p) = true -> hasNicknameOnline n p = true) ->
  registryInvariant ps -> registryInvariant (mutate_key k f ps).
Proof.
  intros Hid Hon [H1 [H2 H3]]. split; [| split].
  - intros n. unfold onlineHolders.
    pose proof (count_mutate_key_le (hasNicknameOnline n) k f ps (Hon n)) as L.
    specialize (H1 n). unfold onlineHolders in H1. lia.
  - rewrite Map_keys_mutate_key. exact H2.
  - apply Forall_mutate_key; [exact H3 |].
    intros p _ Hq. simpl in *. rewrite Hid. exact Hq.
Qed.

Lemma registryInvariant_credits (txs : list Transaction.t) (ps : registry) :
  registryInvariant ps -> registryInvariant (fold_left creditRecipient txs ps).
Proof.
  intros [H1 [H2 H3]]. split; [| split].
  - intros n. unfold onlineHolders. rewrite count_credits; [apply H1 |].
    intros p b. reflexivity.
  - rewrite Map_keys_credits. exact H2.
  - apply Forall_credits; [exact H3 |]. intros tx k p _ Hq. exact Hq.
Qed.

Lemma registryInvariant_Map_set (k : string) (v : Participant.t) (ps : registry) :
  Participant.id v = k ->
  onlineHolders (Participant.nickname v) ps = [] ->
  registryInvariant ps -> registryInvariant (Map_set k v ps).
Proof.
  intros Hid Hfree [H1 [H2 H3]]. split; [| split].
  - intros n. unfold onlineHolders in *.
    pose proof (count_Map_set_le (hasNicknameOnline n) k v ps) as L.
    destruct (hasNicknameOnline n v) eqn:E.
    + apply hasNicknameOnline_true in E. destruct E as [<- _].
      rewrite Hfree in L. simpl in L. lia.
    + specialize (H1 n). lia.
  - rewrite Map_keys_Map_set. destruct (Map_get k ps) eqn:E; [exact H2 |].
    assert (G : forall l : list string, NoDup l -> ~ In k l -> NoDup (l ++ [k])).
    { induction l as [|a l IHl]; intros Hl Hk; simpl.
      - constructor; [intros [] | constructor].
      - inversion Hl; subst. constructor.
        + rewrite in_app_iff. intros [C | [C | []]]; [contradiction |].
          subst. apply Hk. left. reflexivity.
        + apply IHl; [assumption |]. intros C. apply Hk. right. exact C. }
    apply G; [exact H2 | apply Map_get_None_keys; exact E].
  - apply Forall_Map_set; [exact H3 | exact Hid].
Qed.

Lemma reachable_registry (s : workshopState) :
  reachable s -> registryInvariant (participants s).
Proof.
  induction 1 as [now | e s Hs IH A].
  - split; [intros n; simpl; lia | split; constructor].
  - apply (step_cases (fun s => registryInvariant (participants s))); try assumption.
    + intros sid n r now _ Hfree. cbn [participants updateStats set_stats set_participants].
      apply registryInvariant_Map_set; [reflexivity | exact Hfree | exact IH].
    + intros sid to a f env tx s' _ E.
      destruct (send_transaction_accepted _ _ _ _ _ _ _ _ E)
        as [sender [recipient [_ [_ [_ [_ [_ [_ [Hps _]]]]]]]]].
      rewrite Hps. apply registryInvariant_mutate_key; [reflexivity | auto | exact IH].
    + intros sid now b s' _ E.
      destruct (mine_block_committed _ _ _ _ _ E) as [miner [_ [_ [_ [_ [_ Hs']]]]]].
      rewrite Hs'. cbn [participants].
      apply registryInvariant_mutate_key; [reflexivity | auto |].
      apply registryInvariant_credits. exact IH.
    + intros sid p _ _. cbn [participants updateStats set_stats set_participants].
      apply registryInvariant_mutate_key; [reflexivity | | exact IH].
      intros n q C. unfold hasNicknameOnline in C. simpl in C.
      rewrite andb_false_r in C. discriminate C.
    + intros s0 n H0. exact H0.
    + intros s0 t H0. exact H0.
Qed.

(** X5. [join-workshop] refuses a nickname that an online participant
    carries ("Nickname already taken!", state unchanged) and accepts any other,
    offline holders notwithstanding.  An accepted join registers under the
    socket id a participant that is online, with balance 100 for the role user
    and 0 otherwise, counters at 0 for the role miner and null otherwise; the
    participants of the other sockets, the pool, the chain, the assignment and
    its deadline are unchanged. *)
Theorem join_workshop_spec :
  forall sid nickname role now s,
    (onlineHolders nickname (participants s) <> [] ->
     join_workshop sid nickname role now s = (join_error "Nickname already taken!", s))
    /\ (onlineHolders nickname (participants s) = [] ->
        exists s',
          join_workshop sid nickname role now s
          = (join_success
               (Participant.mk sid nickname role
                  (if String.eqb role "user" then 100 else 0)
                  (if String.eqb role "miner" then Some 0 else None)
                  (if String.eqb role "miner" then Some O else None) true now), s')
          /\ Map_get sid (participants s')
             = Some (Participant.mk sid nickname role
                       (if String.eqb role "user" then 100 else 0)
                       (if String.eqb role "miner" then Some 0 else None)
                       (if String.eqb role "miner" then Some O else None) true now)
          /\ (forall k, k <> sid ->
                        Map_get k (participants s') = Map_get k (participants s))
          /\ mempool s' = mempool s
          /\ blockchain s' = blockchain s
          /\ currentMiner s' = currentMiner s
          /\ nextMiningTime s' = nextMiningTime s).
Proof.
  intros sid nickname role now s.
  destruct (join_workshop_cases sid nickname role now s) as [[Hn E] | [Hfree E]].
  - split; [intros _; exact E | intros C; contradiction].
  - split; [intros C; contradiction |].
    intros _. eexists. split; [exact E |].
    cbn [participants mempool blockchain currentMiner nextMiningTime
         updateStats set_stats set_participants].
    split; [apply Map_get_Map_set |].
    split; [intros k Hk; apply Map_get_Map_set_other; exact Hk |].
    repeat split; reflexivity.
Qed.

Lemma join_workshop_spec_witness :
  join_workshop "sC" "B" "user" 1700000009000 (after transferRun)
  = (join_error "Nickname already taken!", after transferRun)
  /\ exists s',
       join_workshop "sC" "C" "miner" 1700000009000 (after transferRun)
       = (join_success
            (Participant.mk "sC" "C" "miner" 0 (Some 0) (Some O) true 1700000009000), s')
       /\ mempool s' = mempool (after transferRun).
Proof.
  split.
  - apply (proj1 (join_workshop_spec "sC" "B" "user" 1700000009000 (after transferRun))).
    evaluate.
  - destruct (proj2 (join_workshop_spec "sC" "C" "miner" 1700000009000 (after transferRun)))
      as [s' [E [_ [_ [Hp _]]]]]; [evaluate |].
    exists s'. split; [exact E | exact Hp].
Defined.

(** X6. In every reachable state a nickname has at most one online holder,
    so the recipient lookup of [send-transaction] and the duplicate check of
    [join-workshop] have at most one candidate; and the participant found
    under a socket id records that id. *)
Theorem reachable_registry_invariant :
  forall s, reachable s ->
    (forall n, (List.length (onlineHolders n (participants s)) <= 1)%nat)
    /\ (forall n p, find (hasNicknameOnline n) (Map_values (participants s)) = Some p ->
                    onlineHolders n (participants s) = [p])
    /\ (forall k p, Map_get k (participants s) = Some p -> Participant.id p = k).
Proof.
  intros s Hs. destruct (reachable_registry s Hs) as [H1 [H2 H3]].
  split; [exact H1 |]. split.
  - intros n p Hfind. specialize (H1 n). unfold onlineHolders in *.
    revert Hfind H1. generalize (Map_values (participants s)).
    induction l as [|a l IH]; simpl; [discriminate |].
    destruct (hasNicknameOnline n a) eqn:E.
    + intros H. injection H as ->. simpl. intros L.
      destruct (filter (hasNicknameOnline n) l); [reflexivity | simpl in L; lia].
    + exact IH.
  - intros k p Hget. apply Map_get_In in Hget.
    rewrite Forall_forall in H3. apply (H3 (k, p) Hget).
Qed.

Lemma reachable_registry_invariant_witness :
  (List.length (onlineHolders "bob" (participants (after staleNicknameRun))) <= 1)%nat
  /\ option_map Participant.id (Map_get "s2" (participants (after staleNicknameRun)))
     = Some "s2".
Proof.
  destruct (reachable_registry_invariant (after staleNicknameRun)) as [H1 [_ H3]];
    [apply after_reachable; evaluate |].
  split; [apply H1 |].
  destruct (Map_get "s2" (participants (after staleNicknameRun))) as [p|] eqn:E;
    [| vm_compute in E; discriminate E].
  simpl. rewrite (H3 "s2" p E). reflexivity.
Defined.

Lemma minedCount_app (chain : list Block.t) (b : Block.t) :
  minedCount (chain ++ [b]) = (minedCount chain + List.length (Block.transactions b))%nat.
Proof.
  induction chain as [|a chain IH]; simpl; [lia | rewrite IH; lia].
Qed.

Lemma reachable_stats (s : workshopState) : reachable s -> statsInvariant s.
Proof.
  induction 1 as [now | e s Hs IH A].
  - repeat split.
  - apply (step_cases statsInvariant); try assumption.
    + intros sid n r now _ _. destruct IH as [_ [_ [H3 H4]]].
      repeat split; assumption.
    + intros sid to a f env tx s' _ E. destruct IH as [H1 [H2 [H3 H4]]].
      destruct (send_transaction_accepted _ _ _ _ _ _ _ _ E)
        as [sender [recipient [_ [_ [_ [_ [_ [_ [Hps [Hpool [Hchain [Hstats _]]]]]]]]]]]].
      unfold statsInvariant. rewrite Hps, Hpool, Hchain, Hstats.
      cbn [activeUsers activeMiners totalBlocks totalTransactions].
      rewrite !count_mutate_key by (intros p; reflexivity).
      rewrite length_app. simpl. repeat split; try assumption. lia.
    + intros sid now b s' _ E. destruct IH as [H1 [H2 [H3 H4]]].
      destruct (mine_block_committed _ _ _ _ _ E) as [miner [_ [_ [_ [_ [Hb Hs']]]]]].
      destruct Hb as [_ [_ [_ [_ [Htxs _]]]]].
      unfold statsInvariant. rewrite Hs'.
      cbn [participants mempool blockchain stats
           activeUsers activeMiners totalBlocks totalTransactions].
      rewrite !count_mutate_key by (intros p; reflexivity).
      rewrite !count_credits by (intros p bal; reflexivity).
      rewrite length_app, minedCount_app, Htxs. change (List.length [b]) with 1%nat.
      pose proof (firstn_skipn 5 (mempool s)) as Hsplit.
      apply (f_equal (@List.length _)) in Hsplit. rewrite length_app in Hsplit.
      repeat split; try assumption; lia.
    + intros sid p _ _. destruct IH as [_ [_ [H3 H4]]].
      repeat split; assumption.
    + intros s0 n H0. exact H0.
    + intros s0 t H0. exact H0.
Qed.

(** X7. The counters of [stats] are exact in every reachable state:
    activeUsers and activeMiners count the online users and the online miners,
    totalBlocks counts the blocks after the genesis block, and
    totalTransactions counts the pending transactions plus those held by the
    blocks, so no accepted transaction is lost or counted twice. *)
Theorem reachable_stats_exact :
  forall s, reachable s ->
    activeUsers (stats s) = List.length (filter isOnlineUser (Map_values (participants s)))
    /\ activeMiners (stats s)
       = List.length (filter isOnlineMiner (Map_values (participants s)))
    /\ S (totalBlocks (stats s)) = List.length (blockchain s)
    /\ totalTransactions (stats s)
       = (List.length (mempool s) + minedCount (blockchain s))%nat.
Proof. exact reachable_stats. Qed.

Lemma reachable_stats_exact_witness :
  totalTransactions (stats (after (threeFeesRun ++ [ev_mine "sM" 1700000050000])))
  = (List.length (mempool (after (threeFeesRun ++ [ev_mine "sM" 1700000050000])))
     + minedCount (blockchain (after (threeFeesRun ++ [ev_mine "sM" 1700000050000]))))%nat.
Proof.
  apply reachable_stats_exact. apply after_reachable. evaluate.
Defined.

Lemma mutate_key_twice (k : string) f (m : registry) :
  (forall p, f (f p) = f p) -> mutate_key k f (mutate_key k f m) = mutate_key k f m.
Proof.
  intros Hf. induction m as [|[k' p] m IH]; simpl; [reflexivity |].
  destruct (String.eqb k' k) eqn:E; simpl; rewrite E; [rewrite Hf | rewrite IH]; reflexivity.
Qed.

(** X8. [disconnect] does nothing for a socket without participant.
    Otherwise it switches that participant offline and changes nothing else:
    the other participants, every balance, the pool, the chain, and also the
    mining assignment and its deadline, even when the socket is that of the
    assigned miner.  A second disconnection changes nothing more.  In a
    reachable state the nickname of an online participant that leaves has no
    online holder left, so that a later socket may join under it. *)
Theorem disconnect_spec :
  (forall sid s, Map_get sid (participants s) = None -> disconnect sid s = s)
  /\ (forall sid s p,
        Map_get sid (participants s) = Some p ->
        Map_get sid (participants (disconnect sid s)) = Some (Participant.set_online false p)
        /\ (forall k, k <> sid ->
                      Map_get k (participants (disconnect sid s)) = Map_get k (participants s))
        /\ mempool (disconnect sid s) = mempool s
        /\ blockchain (disconnect sid s) = blockchain s
        /\ currentMiner (disconnect sid s) = currentMiner s
        /\ nextMiningTime (disconnect sid s) = nextMiningTime s)
  /\ (forall sid s, disconnect sid (disconnect sid s) = disconnect sid s)
  /\ (forall sid s p sid' role now,
        reachable s ->
        Map_get sid (participants s) = Some p ->
        Participant.online p = true ->
        onlineHolders (Participant.nickname p) (participants (disconnect sid s)) = []
        /\ exists q s',
             join_workshop sid' (Participant.nickname p) role now (disconnect sid s)
             = (join_success q, s')).
Proof.
  split; [| split; [| split]].
  - intros sid s H. unfold disconnect. rewrite H. reflexivity.
  - intros sid s p H. unfold disconnect. rewrite H.
    cbn [participants mempool blockchain currentMiner nextMiningTime
         updateStats set_stats set_participants].
    split; [rewrite Map_get_mutate_key, H; reflexivity |].
    split; [intros k Hk; apply Map_get_mutate_key_else; exact Hk |].
    repeat split; reflexivity.
  - intros sid s. unfold disconnect at 2.
    destruct (Map_get sid (participants s)) as [p|] eqn:E.
    + unfold disconnect.
      cbn [participants updateStats set_stats set_participants].
      rewrite Map_get_mutate_key, E. cbn [option_map].
      unfold updateStats, set_stats, set_participants.
      cbn [participants mempool blockchain currentMiner nextMiningTime stats
           totalTransactions totalBlocks].
      rewrite mutate_key_twice by (intros q; reflexivity). reflexivity.
    + unfold disconnect. rewrite E. reflexivity.
  - intros sid s p sid' role now Hs Hget Hon.
    assert (Hfree : onlineHolders (Participant.nickname p) (participants (disconnect sid s)) = []).
    { unfold disconnect. rewrite Hget.
      cbn [participants updateStats set_stats set_participants].
      destruct (reachable_registry s Hs) as [H1 _].
      specialize (H1 (Participant.nickname p)). unfold onlineHolders in *.
      pose proof (count_switch_off (hasNicknameOnline (Participant.nickname p)) sid
                    (Participant.set_online false) (participants s) p Hget) as C.
      assert (T : hasNicknameOnline (Participant.nickname p) p = true)
        by (apply hasNicknameOnline_true; auto).
      assert (F : hasNicknameOnline (Participant.nickname p) (Participant.set_online false p)
                  = false)
        by (unfold hasNicknameOnline; simpl; apply andb_false_r).
      specialize (C T F).
      destruct (filter (hasNicknameOnline (Participant.nickname p))
                  (Map_values (mutate_key sid (Participant.set_online false) (participants s))));
        [reflexivity | simpl in C; lia]. }
    split; [exact Hfree |].
    destruct (join_workshop_cases sid' (Participant.nickname p) role now (disconnect sid s))
      as [[Hn _] | [_ E]]; [contradiction |].
    eexists. eexists. exact E.
Qed.

Lemma disconnect_spec_witness :
  disconnect "nobody" (after transferRun) = after transferRun
  /\ option_map Participant.online
       (Map_get "sM" (participants (disconnect "sM" (after threeFeesRun)))) = Some false
  /\ currentMiner (disconnect "sM" (after threeFeesRun)) = Some "mina"
  /\ onlineHolders "B" (participants (disconnect "sB" (after transferRun))) = [].
Proof.
  destruct disconnect_spec as [H1 [H2 [_ H4]]].
  split; [apply H1; evaluate |].
  destruct (H2 "sM" (after threeFeesRun)
              (Participant.mk "sM" "mina" "miner" 0 (Some 0) (Some O) true 1700000003000))
    as [Hget [_ [_ [_ [Hcur _]]]]]; [evaluate |].
  split; [rewrite Hget; reflexivity |].
  split; [rewrite Hcur; evaluate |].
  destruct (H4 "sB" (after transferRun)
              (Participant.mk "sB" "B" "user" 100 None None true 1700000002000)
              "sC" "user" 1700000009000) as [Hfree _];
    [apply after_reachable; evaluate | evaluate | reflexivity |].
  exact Hfree.
Defined.

(* ------------------------------------------------------------------ *)
(** ** Blocks, the chain and the handlers' conditions, further properties *)

Lemma steps_blockchain (es : list event) (s : workshopState) :
  exists l, blockchain (fold_left (fun s e => step e s) es s) = blockchain s ++ l.
Proof.
  revert s. induction es as [|e es IH]; intros s; simpl.
  - exists []. rewrite app_nil_r. reflexivity.
  - destruct (IH (step e s)) as [l Hl]. rewrite Hl.
    destruct (step_blockchain e s) as [E | [b [E _]]]; rewrite E.
    + exists l. reflexivity.
    + exists (b :: l). rewrite <- app_assoc. reflexivity.
Qed.

(** X9. The chain is append-only: whatever events follow, the chain of the
    earlier state is a prefix of the later chain, so a committed block is never
    changed, moved or removed.  In every reachable state the block at index i
    carries the number i. *)
Theorem blockchain_append_only :
  (forall es s, exists l,
      blockchain (fold_left (fun s e => step e s) es s) = blockchain s ++ l)
  /\ (forall es s i b,
        nth_error (blockchain s) i = Some b ->
        nth_error (blockchain (fold_left (fun s e => step e s) es s)) i = Some b)
  /\ (forall s, reachable s ->
        forall i b, nth_error (blockchain s) i = Some b -> Block.number b = i).
Proof.
  split; [exact steps_blockchain |]. split.
  - intros es s i b H. destruct (steps_blockchain es s) as [l ->].
    rewrite nth_error_app1; [exact H |]. apply nth_error_Some. congruence.
  - intros s Hs i b H.
    destruct (reachable_chain s Hs) as [[now [rest [Hc Hm]]] _].
    rewrite Hc in H. destruct i as [|i]; simpl in H.
    + injection H as <-. reflexivity.
    + apply (minedFrom_nth 1 rest i b Hm H).
Qed.

Lemma blockchain_append_only_witness :
  match nth_error (blockchain (after threeFeesRun)) 0 with
  | Some b =>
      nth_error (blockchain (fold_left (fun s e => step e s)
                               [ev_mine "sM" 1700000050000] (after threeFeesRun))) 0 = Some b
      /\ Block.number b = 0%nat
  | None => False
  end.
Proof.
  destruct blockchain_append_only as [_ [H2 H3]].
  destruct (nth_error (blockchain (after threeFeesRun)) 0) as [b|] eqn:E;
    [| vm_compute in E; discriminate E].
  split; [apply H2; exact E |].
  apply (H3 (after threeFeesRun)); [apply after_reachable; evaluate | exact E].
Defined.

Lemma Forall_firstn_skipn {A} (P : A -> Prop) (n : nat) (l : list A) :
  Forall P l -> Forall P (firstn n l) /\ Forall P (skipn n l).
Proof.
  intros H. rewrite <- (firstn_skipn n l) in H. apply Forall_app in H. exact H.
Qed.

Lemma reachable_contents (s : workshopState) :
  reachable s ->
  Forall hashed (mempool s)
  /\ Forall (fun b => Block.number b = O \/ minedBlock b) (blockchain s).
Proof.
  induction 1 as [now | e s Hs IH A].
  - split; [constructor | repeat constructor].
  - apply (step_cases (fun s => Forall hashed (mempool s)
                                /\ Forall (fun b => Block.number b = O \/ minedBlock b)
                                          (blockchain s))); try assumption.
    + intros sid n r now _ _. exact IH.
    + intros sid to a f env tx s' _ E. destruct IH as [H1 H2].
      destruct (send_transaction_accepted _ _ _ _ _ _ _ _ E)
        as [sender [recipient [_ [_ [_ [_ [_ [Htx [_ [Hpool [Hchain _]]]]]]]]]]].
      rewrite Hpool, Hchain. split; [| exact H2].
      apply Forall_app. split; [exact H1 |].
      constructor; [| constructor].
      unfold hashed. rewrite Htx at 1. reflexivity.
    + intros sid now b s' _ E. destruct IH as [H1 H2].
      destruct (mine_block_committed _ _ _ _ _ E) as [miner [_ [_ [_ [Hne [Hb Hs']]]]]].
      destruct Hb as [_ [_ [Hroot [_ [Htxs _]]]]].
      destruct (Forall_firstn_skipn hashed 5 (mempool s) H1) as [Hf Hk].
      rewrite Hs'. cbn [mempool blockchain]. split; [exact Hk |].
      apply Forall_app. split; [exact H2 |].
      constructor; [| constructor]. right.
      unfold minedBlock. rewrite Hroot, Htxs. split; [| split; [reflexivity | exact Hf]].
      rewrite length_firstn.
      assert (List.length (mempool s) <> 0)%nat
        by (destruct (mempool s); [contradiction | discriminate]).
      lia.
    + intros sid p _ _. exact IH.
    + intros s0 n H0. exact H0.
    + intros s0 t H0. exact H0.
Qed.

(** X10. In every reachable state each pending transaction carries the digest
    of its own fields, and each block after the genesis block holds between one
    and five transactions, every one with its own digest, under the Merkle root
    of their hashes. *)
Theorem reachable_block_contents :
  forall s, reachable s ->
    Forall hashed (mempool s)
    /\ (forall i b, nth_error (blockchain s) (S i) = Some b ->
          (1 <= List.length (Block.transactions b) <= 5)%nat
          /\ Block.merkleRoot b = buildMerkleTree (map Transaction.hash (Block.transactions b))
          /\ Forall hashed (Block.transactions b)).
Proof.
  intros s Hs. destruct (reachable_contents s Hs) as [H1 H2].
  split; [exact H1 |].
  intros i b Hb.
  destruct (reachable_chain s Hs) as [[now [rest [Hc Hm]]] _].
  assert (Hn : Block.number b = S i).
  { rewrite Hc in Hb. simpl in Hb. apply (minedFrom_nth 1 rest i b Hm Hb). }
  rewrite Forall_forall in H2.
  destruct (H2 b (nth_error_In _ _ Hb)) as [C | M]; [congruence | exact M].
Qed.

Lemma reachable_block_contents_witness :
  match nth_error (blockchain (after (threeFeesRun ++ [ev_mine "sM" 1700000050000]))) 1 with
  | Some b => (1 <= List.length (Block.transactions b) <= 5)%nat
  | None => False
  end.
Proof.
  destruct (nth_error (blockchain (after (threeFeesRun ++ [ev_mine "sM" 1700000050000]))) 1)
    as [b|] eqn:E; [| vm_compute in E; discriminate E].
  refine (proj1 (proj2 (reachable_block_contents _ _) 0%nat b E)).
  apply after_reachable. evaluate.
Defined.

(** X11. In a reachable state a mined block takes the whole pool: the pool is
    empty after every committed block, so the test [mempool.length > 0] that
    arms the 5 s timer at the end of [mine-block] never succeeds. *)
Theorem mine_block_empties_pool :
  forall sid now s b s',
    reachable s ->
    mine_block sid now s = (block_mined b, s') ->
    Block.transactions b = mempool s
    /\ mempool s' = []
    /\ (0 <? List.length (mempool s'))%nat = false.
Proof.
  intros sid now s b s' Hs E.
  pose proof (reachable_pool_bound s Hs) as Hlen.
  destruct (mine_block_committed _ _ _ _ _ E) as [miner [_ [_ [_ [_ [Hb Hs']]]]]].
  destruct Hb as [_ [_ [_ [_ [Htxs _]]]]].
  assert (Hk : skipn 5 (mempool s) = []) by (apply skipn_all2; exact Hlen).
  rewrite Htxs, Hs'. cbn [mempool]. rewrite Hk.
  split; [apply firstn_all2; exact Hlen | split; reflexivity].
Qed.

Lemma mine_block_empties_pool_witness :
  match mine_block "sM" 1700000050000 (after threeFeesRun) with
  | (block_mined b, s') => mempool s' = []
  | (mining_error _, _) => False
  end.
Proof.
  destruct (mine_block "sM" 1700000050000 (after threeFeesRun)) as [[msg | b] s'] eqn:E;
    [vm_compute in E; discriminate E |].
  refine (proj1 (proj2 (mine_block_empties_pool _ _ _ _ _ _ E))).
  apply after_reachable. evaluate.
Defined.







(* ------------------------------------------------------------------ *)
(** ** Selection of the miner and the timers *)

Lemma getRandomMiner_index (random : Q) (s : workshopState) (k : Z) :
  onlineMiners s <> [] ->
  Qfloor (random * inject_Z (Z.of_nat (List.length (onlineMiners s)))) = k ->
  0 <= k ->
  getRandomMiner random s = nth_error (onlineMiners s) (Z.to_nat k).
Proof.
  unfold getRandomMiner, onlineMiners. cbv zeta. intros Hne.
  destruct (filter isOnlineMiner (Map_values (participants s))) as [|p l]; [contradiction |].
  intros <- Hk. apply Z.ltb_ge in Hk. rewrite Hk. reflexivity.
Qed.


Lemma getRandomMiner_some (random : Q) (s : workshopState) :
  isRandom random = true -> onlineMiners s <> [] ->
  exists m, getRandomMiner random s = Some m /\ In m (onlineMiners s).
Proof.
  intros Hr Hne.
  assert (Hlen : (0 < List.length (onlineMiners s))%nat)
    by (destruct (onlineMiners s); [contradiction | simpl; lia]).
  destruct (randomIndex_bounds random _ Hr Hlen) as [Hlo Hhi].
  rewrite (getRandomMiner_index random s _ Hne eq_refl Hlo).
  destruct (nth_error (onlineMiners s)
              (Z.to_nat (Qfloor (random * inject_Z (Z.of_nat (List.length (onlineMiners s)))))))
    as [m|] eqn:E.
  - exists m. split; [reflexivity | apply (nth_error_In _ _ E)].
  - exfalso. apply nth_error_None in E. lia.
Qed.

Lemma triggerMining_idle (random : Q) (now : Z) (s : workshopState) :
  truthy (currentMiner s) = true \/ onlineMiners s = [] ->
  triggerMining random now s = s.
Proof.
  destruct (triggerMining_cases random now s) as [H1 [H2 _]].
  intros [H | H]; [apply H1; exact H | apply H2; exact H].
Qed.

Lemma triggerMining_assigns (random : Q) (now : Z) (s : workshopState) :
  truthy (currentMiner s) = false -> isRandom random = true -> onlineMiners s <> [] ->
  exists m,
    getRandomMiner random s = Some m
    /\ In m (onlineMiners s)
    /\ triggerMining random now s
       = mkState (participants s) (mempool s) (blockchain s)
                 (Some (Participant.nickname m)) (Some (now + 30000)) (stats s).
Proof.
  intros Hc Hr Hne. destruct (getRandomMiner_some random s Hr Hne) as [m [E Hin]].
  exists m. split; [exact E |]. split; [exact Hin |].
  unfold triggerMining. rewrite Hc, E. reflexivity.
Qed.



(** X16. [triggerMining] does nothing when the assignment is truthy or no
    miner is online.  Otherwise, with a draw in [0,1), it assigns the nickname
    of the online miner that [getRandomMiner] returns, sets the deadline to
    now + 30000 and changes nothing else.  When no online miner has the empty
    nickname, a second call right after a first one does nothing. *)
Theorem triggerMining_spec :
  forall random now s,
    (truthy (currentMiner s) = true \/ onlineMiners s = [] ->
     triggerMining random now s = s)
    /\ (truthy (currentMiner s) = false -> isRandom random = true ->
        onlineMiners s <> [] ->
        exists m,
          getRandomMiner random s = Some m
          /\ In m (onlineMiners s)
          /\ triggerMining random now s
             = mkState (participants s) (mempool s) (blockchain s)
                       (Some (Participant.nickname m)) (Some (now + 30000)) (stats s))
    /\ (isRandom random = true ->
        (forall m, In m (onlineMiners s) -> Participant.nickname m <> "") ->
        forall random' now',
          triggerMining random' now' (triggerMining random now s)
          = triggerMining random now s).
Proof.
  intros random now s.
  split; [apply triggerMining_idle |].
  split; [apply triggerMining_assigns |].
  intros Hr Hnick random' now'.
  destruct (truthy (currentMiner s)) eqn:T.
  - rewrite (triggerMining_idle random now s (or_introl T)).
    apply triggerMining_idle. left. exact T.
  - destruct (onlineMiners s) as [|p l] eqn:M.
    + rewrite (triggerMining_idle random now s (or_intror M)).
      apply triggerMining_idle. right. exact M.
    + assert (Hne : onlineMiners s <> []) by (rewrite M; discriminate).
      destruct (triggerMining_assigns random now s T Hr Hne) as [m [_ [Hin E]]].
      rewrite E. apply triggerMining_idle. left. cbn [currentMiner truthy].
      rewrite M in Hin.
      destruct (String.eqb (Participant.nickname m) "") eqn:N; [| reflexivity].
      apply String.eqb_eq in N. exfalso. exact (Hnick m Hin N).
Qed.

Lemma triggerMining_spec_witness :
  (triggerMining (1 # 2) 1700000050000 (after threeFeesRun) = after threeFeesRun)
  /\ (exists m,
        getRandomMiner (1 # 2) (after (firstn 4 threeFeesRun)) = Some m
        /\ In m (onlineMiners (after (firstn 4 threeFeesRun)))
        /\ triggerMining (1 # 2) 1700000050000 (after (firstn 4 threeFeesRun))
           = mkState (participants (after (firstn 4 threeFeesRun)))
                     (mempool (after (firstn 4 threeFeesRun)))
                     (blockchain (after (firstn 4 threeFeesRun)))
                     (Some (Participant.nickname m)) (Some (1700000050000 + 30000))
                     (stats (after (firstn 4 threeFeesRun))))
  /\ (triggerMining (1 # 3) 1700000060000
        (triggerMining (1 # 2) 1700000050000 (after (firstn 4 threeFeesRun)))
      = triggerMining (1 # 2) 1700000050000 (after (firstn 4 threeFeesRun))).
Proof.
  split; [| split].
  - apply (proj1 (triggerMining_spec (1 # 2) 1700000050000 (after threeFeesRun))).
    left. vm_compute. reflexivity.
  - apply (proj1 (proj2 (triggerMining_spec (1 # 2) 1700000050000
                           (after (firstn 4 threeFeesRun))))).
    + vm_compute. reflexivity.
    + reflexivity.
    + vm_compute. discriminate.
  - apply (proj2 (proj2 (triggerMining_spec (1 # 2) 1700000050000
                           (after (firstn 4 threeFeesRun))))).
    + reflexivity.
    + intros m Hin C.
      assert (F : forallb (fun p => negb (String.eqb (Participant.nickname p) ""))
                    (onlineMiners (after (firstn 4 threeFeesRun))) = true)
        by (vm_compute; reflexivity).
      rewrite forallb_forall in F. specialize (F m Hin). rewrite C in F. discriminate F.
Defined.

(** X17. The callback of the 30 s timer armed for a nickname.  It does
    nothing unless that nickname is still the assignment; the deadline is not
    read.  Otherwise it clears the assignment and, when transactions are
    pending, triggers again at once: with no miner online the assignment stays
    cleared, and with a draw in [0,1) an online miner is assigned with a new
    deadline.  The miner that let the time pass is not excluded: when it is the
    only miner online it is assigned again. *)
Theorem turnTimeout_spec :
  forall nickname random now s,
    (currentMiner s <> Some nickname -> turnTimeout nickname random now s = s)
    /\ (currentMiner s = Some nickname ->
        mempool s = [] \/ onlineMiners s = [] ->
        turnTimeout nickname random now s = set_currentMiner None s)
    /\ (currentMiner s = Some nickname -> mempool s <> [] ->
        isRandom random = true -> onlineMiners s <> [] ->
        exists m,
          In m (onlineMiners s)
          /\ turnTimeout nickname random now s
             = mkState (participants s) (mempool s) (blockchain s)
                       (Some (Participant.nickname m)) (Some (now + 30000)) (stats s))
    /\ (forall m,
          currentMiner s = Some nickname -> mempool s <> [] ->
          isRandom random = true -> onlineMiners s = [m] ->
          Participant.nickname m = nickname ->
          turnTimeout nickname random now s = set_nextMiningTime (Some (now + 30000)) s).
Proof.
  intros nickname random now s.
  assert (Hre : currentMiner s = Some nickname -> mempool s <> [] ->
                isRandom random = true -> onlineMiners s <> [] ->
                exists m,
                  In m (onlineMiners s)
                  /\ turnTimeout nickname random now s
                     = mkState (participants s) (mempool s) (blockchain s)
                         (Some (Participant.nickname m)) (Some (now + 30000)) (stats s)).
  { intros Hc Hp Hr Hm. unfold turnTimeout.
    rewrite (proj2 (isCurrentMiner_true _ _) Hc). cbv zeta.
    change (mempool (set_currentMiner None s)) with (mempool s).
    assert (L : (0 <? List.length (mempool s))%nat = true)
      by (destruct (mempool s); [contradiction | reflexivity]).
    rewrite L.
    destruct (triggerMining_assigns random now (set_currentMiner None s) eq_refl Hr Hm)
      as [m [_ [Hin E]]].
    exists m. split; [exact Hin |]. rewrite E. reflexivity. }
  split; [| split; [| split; [exact Hre |]]].
  - intros Hc. unfold turnTimeout.
    destruct (isCurrentMiner (currentMiner s) nickname) eqn:E; [| reflexivity].
    apply isCurrentMiner_true in E. contradiction.
  - intros Hc Hor. unfold turnTimeout.
    rewrite (proj2 (isCurrentMiner_true _ _) Hc). cbv zeta.
    change (mempool (set_currentMiner None s)) with (mempool s).
    destruct (0 <? List.length (mempool s))%nat eqn:L; [| reflexivity].
    destruct Hor as [Hp | Hm].
    + rewrite Hp in L. discriminate L.
    + apply triggerMining_idle. right. exact Hm.
  - intros m Hc Hp Hr Hm Hn.
    assert (Hne : onlineMiners s <> []) by (rewrite Hm; discriminate).
    destruct (Hre Hc Hp Hr Hne) as [m' [Hin E]].
    rewrite Hm in Hin. destruct Hin as [<- | []].
    rewrite E, Hn, <- Hc. destruct s; reflexivity.
Qed.

Lemma turnTimeout_spec_witness :
  turnTimeout "zoe" (1 # 2) 1700000080000 (after threeFeesRun) = after threeFeesRun
  /\ turnTimeout "mina" (1 # 2) 1700000080000 (after threeFeesRun)
     = set_nextMiningTime (Some (1700000080000 + 30000)) (after threeFeesRun).
Proof.
  split.
  - apply (proj1 (turnTimeout_spec "zoe" (1 # 2) 1700000080000 (after threeFeesRun))).
    vm_compute. discriminate.
  - apply (proj2 (proj2 (proj2 (turnTimeout_spec "mina" (1 # 2) 1700000080000
                                  (after threeFeesRun))))
             (Participant.mk "sM" "mina" "miner" 0 (Some 0) (Some O) true 1700000003000)).
    + vm_compute. reflexivity.
    + vm_compute. discriminate.
    + reflexivity.
    + vm_compute. reflexivity.
    + reflexivity.
Defined.

(** X18. The 45 s sweep triggers mining exactly when transactions are
    pending: its own test of the assignment repeats the guard of
    [triggerMining].  It changes nothing when the pool is empty, when the
    assignment is truthy or when no miner is online, and it never touches
    participants, pool, chain or counters. *)
Theorem sweep_spec :
  forall random now s,
    sweep random now s = (if (0 <? List.length (mempool s))%nat
                          then triggerMining random now s else s)
    /\ (mempool s = [] \/ truthy (currentMiner s) = true \/ onlineMiners s = [] ->
        sweep random now s = s)
    /\ (mempool s <> [] -> truthy (currentMiner s) = false ->
        isRandom random = true -> onlineMiners s <> [] ->
        exists m,
          In m (onlineMiners s)
          /\ sweep random now s
             = mkState (participants s) (mempool s) (blockchain s)
                       (Some (Participant.nickname m)) (Some (now + 30000)) (stats s)).
Proof.
  intros random now s.
  assert (E : sweep random now s = (if (0 <? List.length (mempool s))%nat
                                    then triggerMining random now s else s)).
  { unfold sweep. destruct (0 <? List.length (mempool s))%nat; [| reflexivity].
    destruct (truthy (currentMiner s)) eqn:T; cbn [negb andb]; [| reflexivity].
    symmetry. apply triggerMining_idle. left. exact T. }
  split; [exact E |]. rewrite E. split.
  - intros [Hp | Hor].
    + rewrite Hp. reflexivity.
    + destruct (0 <? List.length (mempool s))%nat; [| reflexivity].
      apply triggerMining_idle. exact Hor.
  - intros Hp Hc Hr Hm.
    assert (L : (0 <? List.length (mempool s))%nat = true)
      by (destruct (mempool s); [contradiction | reflexivity]).
    rewrite L.
    destruct (triggerMining_assigns random now s Hc Hr Hm) as [m [_ [Hin Et]]].
    exists m. split; [exact Hin | exact Et].
Qed.

Lemma sweep_spec_witness :
  sweep (1 # 2) 1700000045000 (after threeFeesRun) = after threeFeesRun
  /\ exists m,
       In m (onlineMiners (after (firstn 4 threeFeesRun)))
       /\ sweep (1 # 2) 1700000045000 (after (firstn 4 threeFeesRun))
          = mkState (participants (after (firstn 4 threeFeesRun)))
                    (mempool (after (firstn 4 threeFeesRun)))
                    (blockchain (after (firstn 4 threeFeesRun)))
                    (Some (Participant.nickname m)) (Some (1700000045000 + 30000))
                    (stats (after (firstn 4 threeFeesRun))).
Proof.
  split.
  - apply (proj1 (proj2 (sweep_spec (1 # 2) 1700000045000 (after threeFeesRun)))).
    right. left. vm_compute. reflexivity.
  - apply (proj2 (proj2 (sweep_spec (1 # 2) 1700000045000 (after (firstn 4 threeFeesRun))))).
    + vm_compute. discriminate.
    + vm_compute. reflexivity.
    + reflexivity.
    + vm_compute. discriminate.
Defined.

(* ------------------------------------------------------------------ *)
(** ** A turn without its miner, signs, and the total supply *)

Lemma truthy_nonempty (n : string) : n <> "" -> truthy (Some n) = true.
Proof.
  intros H. unfold truthy. destruct (String.eqb n "") eqn:E; [| reflexivity].
  apply String.eqb_eq in E. contradiction.
Qed.

Lemma Map_get_values (k : string) (p : Participant.t) (m : registry) :
  Map_get k m = Some p -> In p (Map_values m).
Proof.
  intros H. apply Map_get_In in H. unfold Map_values.
  apply (in_map snd) in H. exact H.
Qed.

(** X19. A turn whose miner is gone.  When the assignment is a non-empty
    nickname that no online miner carries, every [mine-block] call of a
    connected socket is refused without effect, and every event other than the
    30 s callback armed for that nickname leaves the assignment and the chain
    as they are: no block is committed until that callback fires (or a miner
    joins under the nickname). *)
Theorem turn_stalls_without_miner :
  forall s n,
    currentMiner s = Some n -> n <> "" ->
    (forall m, In m (onlineMiners s) -> Participant.nickname m <> n) ->
    (forall sid now, connected sid s = true ->
       exists msg, mine_block sid now s = (mining_error msg, s))
    /\ (forall e, admissible e s = true ->
          (forall random now, e <> ev_turn_timer n random now) ->
          currentMiner (step e s) = Some n /\ blockchain (step e s) = blockchain s).
Proof.
  intros s n Hc Hn Hgone.
  assert (T : truthy (currentMiner s) = true) by (rewrite Hc; apply truthy_nonempty; exact Hn).
  assert (Hmine : forall sid now, connected sid s = true ->
                    exists msg, mine_block sid now s = (mining_error msg, s)).
  { intros sid now Hconn.
    destruct (mine_block sid now s) as [[msg | b] s'] eqn:E.
    - exists msg. rewrite (mine_block_rejected _ _ _ _ _ E). reflexivity.
    - exfalso.
      destruct (mine_block_committed _ _ _ _ _ E) as [miner [Hget [Hrole [Hturn _]]]].
      unfold connected in Hconn. rewrite Hget in Hconn.
      apply (Hgone miner).
      + unfold onlineMiners. apply filter_In. split; [apply (Map_get_values sid); exact Hget |].
        unfold isOnlineMiner. rewrite Hrole, Hconn. reflexivity.
      + rewrite Hc in Hturn. injection Hturn as ->. reflexivity. }
  split; [exact Hmine |].
  intros e A He.
  destruct e as [sid nick r now | sid to a f env | sid now | sid | r now | n' r now | r now];
    cbn [step].
  - destruct (join_workshop_frame sid nick r now s) as [_ [H2 H3]].
    rewrite H2, H3. auto.
  - destruct (send_transaction sid to a f env s) as [[msg | tx] s'] eqn:E; cbn [snd].
    + rewrite (send_transaction_rejected _ _ _ _ _ _ _ _ E). auto.
    + destruct (send_transaction_accepted _ _ _ _ _ _ _ _ E)
        as [sender [recipient [_ [_ [_ [_ [_ [_ [_ [_ [Hchain [_ Hs']]]]]]]]]]]].
      split; [| exact Hchain].
      rewrite Hs'. cbv zeta.
      destruct (3 <=? List.length _)%nat; [| exact Hc].
      rewrite triggerMining_idle; [exact Hc | left; exact T].
  - cbn [admissible] in A. destruct (Hmine sid now A) as [msg ->]. auto.
  - destruct (disconnect_frame sid s) as [_ [H2 H3]]. rewrite H2, H3. auto.
  - rewrite triggerMining_idle; [auto | left; exact T].
  - unfold turnTimeout. destruct (isCurrentMiner (currentMiner s) n') eqn:E; [| auto].
    apply isCurrentMiner_true in E. rewrite Hc in E. injection E as <-.
    exfalso. apply (He r now). reflexivity.
  - unfold sweep. rewrite T, andb_false_r. auto.
Qed.

Lemma turn_stalls_without_miner_witness :
  (exists msg,
     mine_block "sA" 1700000050000 (after (threeFeesRun ++ [ev_disconnect "sM"]))
     = (mining_error msg, after (threeFeesRun ++ [ev_disconnect "sM"])))
  /\ currentMiner (step (ev_sweep (1 # 2) 1700000090000)
                     (after (threeFeesRun ++ [ev_disconnect "sM"]))) = Some "mina".
Proof.
  assert (H : currentMiner (after (threeFeesRun ++ [ev_disconnect "sM"])) = Some "mina")
    by (vm_compute; reflexivity).
  assert (N : "mina" <> "") by discriminate.
  assert (G : forall m, In m (onlineMiners (after (threeFeesRun ++ [ev_disconnect "sM"]))) ->
                        Participant.nickname m <> "mina")
    by (intros m Hin; vm_compute in Hin; contradiction).
  destruct (turn_stalls_without_miner _ _ H N G) as [H1 H2].
  split.
  - apply H1. vm_compute. reflexivity.
  - apply (H2 (ev_sweep (1 # 2) 1700000090000)); [reflexivity | discriminate].
Defined.
















(* ------------------------------------------------------------------ *)
(** ** The trigger at the end of [send-transaction] *)

Lemma filter_mutate_key_untested test (k : string) f (m : registry) (p : Participant.t) :
  Map_get k m = Some p -> test p = false -> test (f p) = false ->
  filter test (Map_values (mutate_key k f m)) = filter test (Map_values m).
Proof.
  induction m as [|[k' q] m IH]; simpl; [discriminate |].
  destruct (String.eqb k' k); simpl; intros Hget Hp Hf.
  - injection Hget as ->. rewrite Hp, Hf. reflexivity.
  - fold (Map_values (mutate_key k f m)). fold (Map_values m).
    rewrite (IH Hget Hp Hf). reflexivity.
Qed.

(** X22. The trigger of [send-transaction].  An accepted submission that
    leaves fewer than three transactions in the pool keeps the assignment and
    its deadline.  One that brings the pool to three or more calls
    [triggerMining]: with no truthy assignment, a draw in [0,1) and a miner
    online, a miner that is online is assigned with the deadline now + 30000;
    with a truthy assignment or no miner online, assignment and deadline stay
    as they were. *)
Theorem send_transaction_triggers :
  forall sid to amount fee env s tx s',
    send_transaction sid to amount fee env s = (new_transaction tx, s') ->
    ((List.length (mempool s) < 2)%nat ->
     currentMiner s' = currentMiner s /\ nextMiningTime s' = nextMiningTime s)
    /\ ((2 <= List.length (mempool s))%nat ->
        truthy (currentMiner s) = false ->
        isRandom (trigger_random env) = true ->
        onlineMiners s <> [] ->
        exists m,
          In m (onlineMiners s)
          /\ currentMiner s' = Some (Participant.nickname m)
          /\ nextMiningTime s' = Some (trigger_now env + 30000))
    /\ (truthy (currentMiner s) = true \/ onlineMiners s = [] ->
        currentMiner s' = currentMiner s /\ nextMiningTime s' = nextMiningTime s).
Proof.
  intros sid to amount fee env s tx s' E.
  destruct (send_transaction_accepted _ _ _ _ _ _ _ _ E)
    as [sender [recipient [Hget [Hrole [_ [_ [_ [_ [Hparts [Hpool [_ [_ Hs']]]]]]]]]]]].
  cbv zeta in Hs'.
  set (s3 := mkState (participants s') (mempool s') (blockchain s) (currentMiner s)
                     (nextMiningTime s) (stats s')) in Hs'.
  assert (L : List.length (mempool s3) = S (List.length (mempool s))).
  { unfold s3. cbn [mempool]. rewrite Hpool, length_app. simpl. lia. }
  assert (M : onlineMiners s3 = onlineMiners s).
  { unfold onlineMiners, s3. cbn [participants]. rewrite Hparts.
    apply (filter_mutate_key_untested _ _ _ _ sender Hget);
      unfold isOnlineMiner; cbn [Participant.role Participant.set_balance];
      rewrite Hrole; reflexivity. }
  split; [| split].
  - intros Hlt.
    destruct (3 <=? List.length (mempool s3))%nat eqn:C; [apply Nat.leb_le in C; lia |].
    rewrite Hs'. split; reflexivity.
  - intros Hge T Hr Hne.
    destruct (3 <=? List.length (mempool s3))%nat eqn:C; [| apply Nat.leb_gt in C; lia].
    rewrite <- M in Hne.
    destruct (triggerMining_assigns (trigger_random env) (trigger_now env) s3 T Hr Hne)
      as [m [_ [Hin Et]]].
    exists m. rewrite <- M. split; [exact Hin |].
    rewrite Hs', Et. split; reflexivity.
  - intros Hor.
    assert (Ei : triggerMining (trigger_random env) (trigger_now env) s3 = s3).
    { apply triggerMining_idle. rewrite M. exact Hor. }
    rewrite Ei in Hs'.
    assert (Es : s' = s3) by (destruct (3 <=? List.length (mempool s3))%nat; exact Hs').
    rewrite Es. split; reflexivity.
Qed.

Lemma send_transaction_triggers_witness :
  match send_transaction "sB" "alice" 5 1 (env 1700000006000) (after (firstn 5 threeFeesRun)) with
  | (new_transaction _, s') =>
      exists m,
        In m (onlineMiners (after (firstn 5 threeFeesRun)))
        /\ currentMiner s' = Some (Participant.nickname m)
        /\ nextMiningTime s' = Some (trigger_now (env 1700000006000) + 30000)
  | (transaction_error _, _) => False
  end.
Proof.
  destruct (send_transaction "sB" "alice" 5 1 (env 1700000006000)
              (after (firstn 5 threeFeesRun))) as [[msg | tx] s'] eqn:E;
    [vm_compute in E; discriminate E |].
  apply (proj1 (proj2 (send_transaction_triggers _ _ _ _ _ _ _ _ E))).
  - vm_compute. lia.
  - vm_compute. reflexivity.
  - vm_compute. reflexivity.
  - vm_compute. discriminate.
Defined.
